(** * Commenting ranges and comment threads of the editor comments controller

    A shallow embedding of [src/vs/workbench/contrib/comments/browser/commentsController.ts]:
    the range reconciliation of [CommentingRangeDecorator] ([_doUpdate],
    [getMatchedCommentAction], [getNearestCommentingRange]) and the thread
    reconciliation and draft cache of [CommentController]
    ([removeCommentWidgetsAndStoreCache], [setComments], the
    [onDidUpdateCommentThreads] handler, [addCommentAtLine]). *)

From Stdlib Require Import ZArith Lia Bool List.
From stdpp Require Import base gmap strings.
From Stdlib Require Import Ascii.
Import ListNotations.

Open Scope Z_scope.

(* ------------------------------------------------------------------ *)
(** ** Ranges *)

Record Range := mkRange {
  startLineNumber : Z;
  startColumn : Z;
  endLineNumber : Z;
  endColumn : Z
}.

(** Modelled from the spec: the [Range] value of the data model
    ({startLine, startCol, endLine, endCol}); vs/editor/common/core/range.ts
    is not part of the sources. As that class does, the constructor
    [new Range(a, b, c, d)] orders its two end points, so that the start
    never comes after the end. *)
Definition new_Range (sl sc el ec : Z) : Range :=
  if (el <? sl) || ((sl =? el) && (ec <? sc))
  then mkRange el ec sl sc
  else mkRange sl sc el ec.

(** Modelled from the spec: [Range.intersectRanges]: the later start and
    the earlier end, or nothing when the result would be inverted. *)
Definition intersectRanges (a b : Range) : option Range :=
  let '(rsl, rsc) :=
    if startLineNumber a <? startLineNumber b then (startLineNumber b, startColumn b)
    else if startLineNumber a =? startLineNumber b
         then (startLineNumber a, Z.max (startColumn a) (startColumn b))
         else (startLineNumber a, startColumn a) in
  let '(rel, rec) :=
    if endLineNumber b <? endLineNumber a then (endLineNumber b, endColumn b)
    else if endLineNumber a =? endLineNumber b
         then (endLineNumber a, Z.min (endColumn a) (endColumn b))
         else (endLineNumber a, endColumn a) in
  if rel <? rsl then None
  else if (rsl =? rel) && (rec <? rsc) then None
  else Some (new_Range rsl rsc rel rec).

(** Modelled from the spec: [Range.collapseToStart]. *)
Definition collapseToStart (r : Range) : Range :=
  new_Range (startLineNumber r) (startColumn r) (startLineNumber r) (startColumn r).

(** Modelled from the spec: [Range.plusRange], the smallest range holding both. *)
Definition plusRange (a b : Range) : Range :=
  let '(sl, sc) :=
    if startLineNumber b <? startLineNumber a then (startLineNumber b, startColumn b)
    else if startLineNumber b =? startLineNumber a
         then (startLineNumber b, Z.min (startColumn b) (startColumn a))
         else (startLineNumber a, startColumn a) in
  let '(el, ec) :=
    if endLineNumber a <? endLineNumber b then (endLineNumber b, endColumn b)
    else if endLineNumber b =? endLineNumber a
         then (endLineNumber b, Z.max (endColumn b) (endColumn a))
         else (endLineNumber a, endColumn a) in
  new_Range sl sc el ec.

(** Modelled from the spec: [Range.equalsRange] on possibly undefined ranges. *)
Definition equalsRange (a b : option Range) : bool :=
  match a, b with
  | None, None => true
  | Some a, Some b =>
      (startLineNumber a =? startLineNumber b) && (startColumn a =? startColumn b)
      && (endLineNumber a =? endLineNumber b) && (endColumn a =? endColumn b)
  | _, _ => false
  end.

(* ------------------------------------------------------------------ *)
(** ** Provider data *)

(** [languages.CommentingRanges]; [cr_handle] stands for the identity of
    the object, which [getMatchedCommentAction] compares with [===]. *)
Record CommentingRanges := mkCommentingRanges {
  cr_handle : nat;
  ranges : list Range;
  fileComments : bool
}.

(** A comment body: a plain string or markdown with a [value]. *)
Inductive CommentBody :=
  | BodyString (s : string)
  | BodyMarkdown (value : string).

Record Comment := mkComment { body : CommentBody }.

(** The fields of [languages.CommentThread] the controller reads;
    [comments] is [None] when the thread has no comment array. *)
Record CommentThread := mkCommentThread {
  threadId : string;
  commentThreadHandle : Z;
  threadRange : option Range;      (* range *)
  resource : option string;
  comments : option (list Comment);
  isDisposed : bool
}.

(** The fields of [ICommentInfo] that the controller reads. *)
Record ICommentInfo := mkCommentInfo {
  owner : string;
  extensionId : option string;
  label : option string;
  commentingRanges : CommentingRanges;
  threads : list CommentThread
}.

(** [CommentRangeAction]. *)
Record CommentRangeAction := mkAction {
  ownerId : string;
  action_extensionId : option string;
  action_label : option string;
  commentingRangesInfo : CommentingRanges
}.

(** The three [ModelDecorationOptions] of [CommentingRangeDecorator]. *)
Inductive DecorationOptions :=
  | decorationOptions            (* comment-range-glyph comment-diff-added *)
  | hoverDecorationOptions       (* comment-range-glyph line-hover *)
  | multilineDecorationOptions.  (* comment-range-glyph multiline-add *)

Definition DecorationOptions_eqb (a b : DecorationOptions) : bool :=
  match a, b with
  | decorationOptions, decorationOptions
  | hoverDecorationOptions, hoverDecorationOptions
  | multilineDecorationOptions, multilineDecorationOptions => true
  | _, _ => false
  end.

(** [CommentingRangeDecoration]: the constructor arguments it keeps. *)
Record CommentingRangeDecoration := mkDecoration {
  crd_ownerId : string;
  crd_extensionId : option string;
  crd_label : option string;
  crd_range : Range;                       (* _range *)
  crd_options : DecorationOptions;
  crd_commentingRangesInfo : CommentingRanges;
  crd_isHover : bool
}.

(** The [range] getter: what the decoration submits to the editor. *)
Definition decoration_range (d : CommentingRangeDecoration) : Range :=
  mkRange (startLineNumber (crd_range d)) 1 (endLineNumber (crd_range d)) 1.

Definition getCommentAction (d : CommentingRangeDecoration) : CommentRangeAction :=
  mkAction (crd_ownerId d) (crd_extensionId d) (crd_label d) (crd_commentingRangesInfo d).

Definition getOriginalRange (d : CommentingRangeDecoration) : Range := crd_range d.

(* ------------------------------------------------------------------ *)
(** ** [CommentingRangeDecorator._doUpdate] *)

Section DoUpdate.

(** [_lineHasThread editor r]: whether the editor has a comment-thread glyph
    decoration in [r] (an editor query). *)
Variable lineHasThread : Range -> bool.

(** The body of [info.commentingRanges.ranges.forEach(range => ...)]. *)
Definition doUpdate_range (info : ICommentInfo) (emphasisLine : Z)
    (selectionRange : option Range) (range : Range) : list CommentingRangeDecoration :=
  let mk r o h := mkDecoration (owner info) (extensionId info) (label info) r o
                    (commentingRanges info) h in
  let rangeObject := new_Range (startLineNumber range) (startColumn range)
                       (endLineNumber range) (endColumn range) in
  let intersecting := match selectionRange with
                      | Some s => intersectRanges rangeObject s
                      | None => None
                      end in
  let else_if :=
    if (startLineNumber rangeObject <=? emphasisLine) && (emphasisLine <=? endLineNumber rangeObject)
    then
      let emphasisRange := new_Range emphasisLine 1 emphasisLine 1 in
      (if startLineNumber rangeObject <? emphasisLine
       then [mk (new_Range (startLineNumber range) 1 (emphasisLine - 1) 1) decorationOptions true]
       else [])
      ++ (if lineHasThread emphasisRange then [] else [mk emphasisRange hoverDecorationOptions true])
      ++ (if emphasisLine <? endLineNumber rangeObject
          then [mk (new_Range (emphasisLine + 1) 1 (endLineNumber range) 1) decorationOptions true]
          else [])
    else [mk range decorationOptions false] in
  match selectionRange, intersecting with
  | Some _, Some isr =>
      if (0 <=? emphasisLine)
         && negb ((startLineNumber isr =? endLineNumber isr) && (emphasisLine =? startLineNumber isr))
      then
        let '(intersectingEmphasisRange, intersectingSelectionRange) :=
          if emphasisLine <=? startLineNumber isr
          then (collapseToStart isr, new_Range (startLineNumber isr + 1) 1 (endLineNumber isr) 1)
          else (new_Range (endLineNumber isr) 1 (endLineNumber isr) 1,
                new_Range (startLineNumber isr) 1 (endLineNumber isr - 1) 1) in
        let beforeRangeEndLine :=
          Z.min (startLineNumber intersectingEmphasisRange) (startLineNumber intersectingSelectionRange) - 1 in
        let afterRangeStartLine :=
          Z.max (endLineNumber intersectingEmphasisRange) (endLineNumber intersectingSelectionRange) + 1 in
        [mk intersectingSelectionRange multilineDecorationOptions true]
        ++ (if lineHasThread intersectingEmphasisRange then []
            else [mk intersectingEmphasisRange hoverDecorationOptions true])
        ++ (if startLineNumber rangeObject <=? beforeRangeEndLine
            then [mk (new_Range (startLineNumber range) 1 beforeRangeEndLine 1) decorationOptions true]
            else [])
        ++ (if afterRangeStartLine <=? endLineNumber rangeObject
            then [mk (new_Range afterRangeStartLine 1 (endLineNumber range) 1) decorationOptions true]
            else [])
      else else_if
  | _, _ => else_if
  end.

(** [_doUpdate editor commentInfos emphasisLine selectionRange]: the
    decorations it hands to [deltaDecorations]; [None] when the editor has
    no model (the early return). [emphasisLine] and [selectionRange] are
    the arguments after their defaults ([-1] and [this._lastSelection]). *)
Definition _doUpdate (hasModel : bool) (lastSelectionCursor : option Z)
    (commentInfos : list ICommentInfo) (emphasisLine : Z) (selectionRange : option Range)
    : option (list CommentingRangeDecoration) :=
  if negb hasModel then None else
  let emphasisLine := match lastSelectionCursor with Some c => c | None => emphasisLine end in
  Some (flat_map (fun info =>
          flat_map (doUpdate_range info emphasisLine selectionRange) (ranges (commentingRanges info)))
        commentInfos).

End DoUpdate.

(* ------------------------------------------------------------------ *)
(** ** Lines covered by ranges *)

Definition line_in (l : Z) (r : Range) : Prop :=
  startLineNumber r <= l <= endLineNumber r.

Definition line_inb (l : Z) (r : Range) : bool :=
  (startLineNumber r <=? l) && (l <=? endLineNumber r).

Definition lines_disjoint (a b : Range) : Prop :=
  forall l, ~ (line_in l a /\ line_in l b).

(** How many of the decorations [ds] hold line [l]. *)
Definition count_lines (l : Z) (ds : list CommentingRangeDecoration) : nat :=
  length (List.filter (fun d => line_inb l (crd_range d)) ds).

(** The decorations [ds] tile [R] by line: every line of [R] is in exactly
    one of them (they are pairwise non-overlapping and their union covers
    [R]) and no other line is in any of them. *)
Definition tiles (ds : list CommentingRangeDecoration) (R : Range) : Prop :=
  forall l, count_lines l ds = if line_inb l R then 1%nat else 0%nat.

(** A provider range as the extension API builds it: start before end. *)
Definition wf_range (r : Range) : Prop :=
  startLineNumber r < endLineNumber r
  \/ (startLineNumber r = endLineNumber r /\ startColumn r <= endColumn r).

(** The selection meets [R] on a single line and the emphasis line is
    another one: [_doUpdate] then takes its multi-line branch with a
    one-line intersection. *)
Definition single_line_misroute (emphasisLine : Z) (selectionRange : option Range) (R : Range) : bool :=
  match selectionRange with
  | Some s =>
      match intersectRanges (new_Range (startLineNumber R) (startColumn R) (endLineNumber R) (endColumn R)) s with
      | Some isr => (0 <=? emphasisLine) && (startLineNumber isr =? endLineNumber isr)
                    && negb (emphasisLine =? startLineNumber isr)
      | None => false
      end
  | None => false
  end.

Definition is_hover (d : CommentingRangeDecoration) : bool :=
  DecorationOptions_eqb (crd_options d) hoverDecorationOptions.


(* ------------------------------------------------------------------ *)
(** ** [getMatchedCommentAction] *)

Definition areRangesIntersectingOrTouchingByLine (a b : Range) : bool :=
  if endLineNumber a <? startLineNumber b - 1 then false
  else if endLineNumber b + 1 <? startLineNumber a then false
  else true.

(** The values of [foundHoverActions]. *)
Record FoundAction := mkFound {
  fa_range : Range;
  fa_action : CommentRangeAction
}.

(** A JS [Map] keyed by strings: entries in insertion order; [set] on a
    present key replaces its value in place. *)
Fixpoint map_get {V} (k : string) (m : list (string * V)) : option V :=
  match m with
  | [] => None
  | (k', v) :: t => if String.eqb k k' then Some v else map_get k t
  end.

Fixpoint map_set {V} (k : string) (v : V) (m : list (string * V)) : list (string * V) :=
  match m with
  | [] => [(k, v)]
  | (k', v') :: t => if String.eqb k k' then (k', v) :: t else (k', v') :: map_set k v t
  end.

Section Matched.

(** [decoration.getActiveRange()]: the current range of the decoration's
    marker in the editor model, if it still has one. *)
Variable getActiveRange : CommentingRangeDecoration -> option Range.

(** One iteration of the loop over [this.commentingRangeDecorations]. *)
Definition foundHoverActions_step (commentRange : Range)
    (found : list (string * FoundAction)) (decoration : CommentingRangeDecoration)
    : list (string * FoundAction) :=
  match getActiveRange decoration with
  | Some range =>
      if areRangesIntersectingOrTouchingByLine range commentRange then
        let action := getCommentAction decoration in
        match map_get (ownerId action) found with
        | Some alreadyFoundInfo =>
            if Nat.eqb (cr_handle (commentingRangesInfo (fa_action alreadyFoundInfo)))
                       (cr_handle (commentingRangesInfo action))
            then
              let ar := fa_range alreadyFoundInfo in
              let newRange := new_Range
                (if startLineNumber range <? startLineNumber ar then startLineNumber range else startLineNumber ar)
                (if startColumn range <? startColumn ar then startColumn range else startColumn ar)
                (if endLineNumber ar <? endLineNumber range then endLineNumber range else endLineNumber ar)
                (if endColumn ar <? endColumn range then endColumn range else endColumn ar) in
              map_set (ownerId action) (mkFound newRange action) found
            else map_set (ownerId action) (mkFound range action) found
        | None => map_set (ownerId action) (mkFound range action) found
        end
      else found
  | None => found
  end.

Definition foundHoverActions (commentRange : Range) (decorations : list CommentingRangeDecoration)
    : list (string * FoundAction) :=
  fold_left (foundHoverActions_step commentRange) decorations [].

(** [getMatchedCommentAction(commentRange)] of a decorator whose [_infos]
    are [infos] and whose decorations are [decorations]. *)
Definition getMatchedCommentAction (infos : option (list ICommentInfo))
    (decorations : list CommentingRangeDecoration) (commentRange : option Range)
    : list CommentRangeAction :=
  match commentRange with
  | None =>
      match infos with
      | Some infos =>
          map (fun foundInfo => mkAction (owner foundInfo) (extensionId foundInfo) (label foundInfo)
                                  (commentingRanges foundInfo))
              (List.filter (fun info => fileComments (commentingRanges info)) infos)
      | None => []
      end
  | Some commentRange =>
      map (fun entry => fa_action (snd entry))
        (List.filter (fun entry =>
            (startLineNumber (fa_range (snd entry)) <=? startLineNumber commentRange)
            && (endLineNumber commentRange <=? endLineNumber (fa_range (snd entry))))
          (foundHoverActions commentRange decorations))
  end.


(** The first and last line of the smallest range holding all of [rs]. *)
Definition lines_hull (rs : list Range) : option (Z * Z) :=
  fold_left (fun acc r =>
      Some (match acc with
            | None => (startLineNumber r, endLineNumber r)
            | Some (lo, hi) => (Z.min lo (startLineNumber r), Z.max hi (endLineNumber r))
            end)) rs None.

(** Every line from [lo] to [hi] is in one of [rs]. *)
Definition lines_covered (rs : list Range) (lo hi : Z) : Prop :=
  forall l, lo <= l <= hi -> exists r, In r rs /\ line_in l r.

(* ------------------------------------------------------------------ *)
(** ** [getNearestCommentingRange] *)

Record Position := mkPosition { lineNumber : Z; column : Z }.

(** The [for (const decoration of decorations)] loop: [Some range] when it
    returns [range], [None] when it runs to its end. *)
Fixpoint nearest_loop (findPosition : Position) (reverse : bool)
    (findPositionContainedWithin : option Range) (decorations : list CommentingRangeDecoration)
    : option Range :=
  match decorations with
  | [] => None
  | decoration :: rest =>
      match getActiveRange decoration with
      | None => nearest_loop findPosition reverse findPositionContainedWithin rest
      | Some range =>
          let not_merged :=
            if (startLineNumber range <=? lineNumber findPosition)
               && (lineNumber findPosition <=? endLineNumber range)
            then nearest_loop findPosition reverse
                   (Some (new_Range (startLineNumber range) (startColumn range)
                            (endLineNumber range) (endColumn range))) rest
            else if negb reverse && (endLineNumber range <? lineNumber findPosition)
            then nearest_loop findPosition reverse findPositionContainedWithin rest
            else if reverse && (lineNumber findPosition <? startLineNumber range)
            then nearest_loop findPosition reverse findPositionContainedWithin rest
            else Some range in
          match findPositionContainedWithin with
          | Some within =>
              if areRangesIntersectingOrTouchingByLine range within
              then nearest_loop findPosition reverse (Some (plusRange within range)) rest
              else not_merged
          | None => not_merged
          end
      end
  end.

(** What [getNearestCommentingRange] does: it returns a range or undefined,
    or, with no decorations, fails reading [decorations[0]]. *)
Inductive NearestResult :=
  | NROk (r : option Range)
  | NROutOfBounds.

Definition getNearestCommentingRange (decorations0 : list CommentingRangeDecoration)
    (findPosition : Position) (reverse : bool) : NearestResult :=
  let decorations := if reverse then rev decorations0 else decorations0 in
  match nearest_loop findPosition reverse None decorations with
  | Some range => NROk (Some range)
  | None =>
      match decorations with
      | first :: _ => NROk (getActiveRange first)
      | [] => NROutOfBounds
      end
  end.

End Matched.

(* ------------------------------------------------------------------ *)
(** ** Thread widgets and the draft caches of [CommentController] *)

(** Modelled from the spec: a [ReviewZoneWidget] as the controller sees it
    through the widget interface of the spec (section 6): its owner, its
    thread ([update(thread)] replaces it), the initial draft and edits it
    was created with, and what [getPendingComments()] currently returns
    (the text the user has typed, and the edits of existing comments). *)
Record ReviewZoneWidget := mkZone {
  zone_owner : string;
  commentThread : CommentThread;
  initialPendingComment : option string;
  initialPendingEdits : option (gmap Z string);
  pendingNewComment : option string;
  pendingEdits : gmap Z string
}.

(** The user types [text] into the widget's reply box. *)
Definition setPendingNewComment (zone : ReviewZoneWidget) (text : option string) : ReviewZoneWidget :=
  mkZone (zone_owner zone) (commentThread zone) (initialPendingComment zone)
    (initialPendingEdits zone) text (pendingEdits zone).

(** [zone.update(thread)]. *)
Definition zone_update (zone : ReviewZoneWidget) (thread : CommentThread) : ReviewZoneWidget :=
  mkZone (zone_owner zone) thread (initialPendingComment zone)
    (initialPendingEdits zone) (pendingNewComment zone) (pendingEdits zone).

(** A new widget shows its initial draft as its pending text. *)
Definition createZone (owner : string) (thread : CommentThread)
    (pendingComment : option string) (pendingEdits : option (gmap Z string)) : ReviewZoneWidget :=
  mkZone owner thread pendingComment pendingEdits pendingComment
    (match pendingEdits with Some e => e | None => ∅ end).

(** The state of a [CommentController] that the claims read; the layout,
    listeners and decorators are left out. *)
Record CommentControllerState := mkController {
  _commentInfos : list ICommentInfo;
  _commentWidgets : list ReviewZoneWidget;
  _pendingNewCommentCache : gmap string (gmap string string);
  _pendingEditsCache : gmap string (gmap string (gmap Z string));
  _addInProgress : bool;
  _emptyThreadsToAddQueue : list (option Range * bool)
}.

Definition set_widgets (st : CommentControllerState) (ws : list ReviewZoneWidget) :=
  mkController (_commentInfos st) ws (_pendingNewCommentCache st) (_pendingEditsCache st)
    (_addInProgress st) (_emptyThreadsToAddQueue st).

(** The editor and comment service around the controller. *)
Record Env := mkEnv {
  hasEditor : bool;                 (* this.editor is set *)
  editorURI : option string;        (* the model's uri, if the editor has a model *)
  isCommentingEnabled : bool;
  isEditorInlineOriginal : bool;
  (** [commentService.removeContinueOnComment({owner, uri, range})?.body] *)
  removeContinueOnComment : string -> string -> Range -> option string
}.

Definition hasModel (env : Env) : bool :=
  hasEditor env && match editorURI env with Some _ => true | None => false end.

(** [comments[comments.length - 1]]. *)
Fixpoint last_element {A} (l : list A) : option A :=
  match l with
  | [] => None
  | [x] => Some x
  | _ :: t => last_element t
  end.

(** The body text of the thread's last comment, if it has one. *)
Definition lastCommentBody (thread : CommentThread) : option string :=
  match comments thread with
  | Some cs =>
      match last_element cs with
      | Some lastComment =>
          match body lastComment with
          | BodyString s => Some s
          | BodyMarkdown v => Some v
          end
      | None => None
      end
  | None => None
  end.

(** A JS string is truthy when it is defined and not empty. *)
Definition truthy (s : option string) : bool :=
  match s with Some t => negb (String.eqb t EmptyString) | None => false end.

Definition option_string_eqb (a b : option string) : bool :=
  match a, b with
  | Some a, Some b => String.eqb a b
  | None, None => true
  | _, _ => false
  end.

(** The condition under which teardown stores the new-comment draft. *)
Definition storesDraft (zone : ReviewZoneWidget) : bool :=
  truthy (pendingNewComment zone)
  && negb (option_string_eqb (pendingNewComment zone) (lastCommentBody (commentThread zone))).

(** One iteration of [this._commentWidgets.forEach(zone => ...)] in
    [removeCommentWidgetsAndStoreCache]. *)
Definition storeCache_zone (st : CommentControllerState) (zone : ReviewZoneWidget) : CommentControllerState :=
  let o := zone_owner zone in
  let tid := threadId (commentThread zone) in
  let newCache := _pendingNewCommentCache st in
  let newCache' :=
    match pendingNewComment zone with
    | Some text =>
        if storesDraft zone
        then <[o := <[tid := text]> (default ∅ (newCache !! o))]> newCache
        else match newCache !! o with
             | Some store => <[o := delete tid store]> newCache
             | None => newCache
             end
    | None =>
        match newCache !! o with
        | Some store => <[o := delete tid store]> newCache
        | None => newCache
        end
    end in
  let editsCache := _pendingEditsCache st in
  let editsCache' :=
    if negb (bool_decide (pendingEdits zone = ∅))
    then <[o := <[tid := pendingEdits zone]> (default ∅ (editsCache !! o))]> editsCache
    else match editsCache !! o with
         | Some store => <[o := delete tid store]> editsCache
         | None => editsCache
         end in
  mkController (_commentInfos st) (_commentWidgets st) newCache' editsCache'
    (_addInProgress st) (_emptyThreadsToAddQueue st).

Definition removeCommentWidgetsAndStoreCache (st : CommentControllerState) : CommentControllerState :=
  set_widgets (fold_left storeCache_zone (_commentWidgets st) st) [].

(** [displayCommentThread]: a widget is added unless the editor has no
    model or is the original side of an inline diff. *)
Definition displayCommentThread (env : Env) (st : CommentControllerState) (owner : string)
    (thread : CommentThread) (pendingComment : option string)
    (pendingEdits : option (gmap Z string)) : CommentControllerState :=
  if negb (hasModel env) then st
  else if isEditorInlineOriginal env then st
  else set_widgets st (_commentWidgets st ++ [createZone owner thread pendingComment pendingEdits]).

(** The draft [setComments] hands to the widget of thread [tid] of [owner]. *)
Definition cachedPendingComment (st : CommentControllerState) (owner tid : string) : option string :=
  match _pendingNewCommentCache st !! owner with
  | Some providerCacheStore => providerCacheStore !! tid
  | None => None
  end.

Definition cachedPendingEdits (st : CommentControllerState) (owner tid : string) : option (gmap Z string) :=
  match _pendingEditsCache st !! owner with
  | Some providerEditsCacheStore => providerEditsCacheStore !! tid
  | None => None
  end.

(** [setComments(commentInfos)]; the thread templates of
    [pendingCommentThreads] and the decorator updates are left out. *)
Definition setComments (env : Env) (st : CommentControllerState) (commentInfos : list ICommentInfo)
    : CommentControllerState :=
  if negb (hasEditor env) || negb (isCommentingEnabled env) then st else
  let st := mkController commentInfos (_commentWidgets st) (_pendingNewCommentCache st)
              (_pendingEditsCache st) (_addInProgress st) (_emptyThreadsToAddQueue st) in
  let st := removeCommentWidgetsAndStoreCache st in
  fold_left (fun st info =>
      fold_left (fun st thread =>
          displayCommentThread env st (owner info) thread
            (cachedPendingComment st (owner info) (threadId thread))
            (cachedPendingEdits st (owner info) (threadId thread)))
        (List.filter (fun thread => negb (isDisposed thread)) (threads info)) st)
    commentInfos st.

(* ------------------------------------------------------------------ *)
(** ** The [onDidUpdateCommentThreads] handler *)

(** A pending thread of the event: [owner], [uri], [range]. *)
Record PendingCommentThread := mkPendingThread {
  pending_owner : string;
  pending_uri : string;
  pending_range : option Range
}.

Record CommentThreadChangedEvent := mkThreadEvent {
  event_owner : string;
  added : list CommentThread;
  removed : list CommentThread;
  changed : list CommentThread;
  pending : list PendingCommentThread
}.

(** The calls the handler makes on the comment service. *)
Inductive ServiceCall :=
  | createCommentThreadTemplate (owner uri : string) (range : option Range).

(** [thread.resource && thread.resource === editorURI.toString()]. *)
Definition onEditorResource (uri : string) (thread : CommentThread) : bool :=
  match resource thread with
  | Some r => negb (String.eqb r EmptyString) && String.eqb r uri
  | None => false
  end.

(** [matchedZones[0]] removed from the list ([indexOf] and [splice]). *)
Fixpoint remove_first {A} (p : A -> bool) (l : list A) : list A :=
  match l with
  | [] => []
  | x :: t => if p x then t else x :: remove_first p t
  end.

(** [matchedZones[0].update(thread)]. *)
Fixpoint update_first (p : ReviewZoneWidget -> bool) (thread : CommentThread)
    (l : list ReviewZoneWidget) : list ReviewZoneWidget :=
  match l with
  | [] => []
  | z :: t => if p z then zone_update z thread :: t else z :: update_first p thread t
  end.

Definition sameThread (owner : string) (thread : CommentThread) (zone : ReviewZoneWidget) : bool :=
  String.eqb (zone_owner zone) owner && String.eqb (threadId (commentThread zone)) (threadId thread).

(** [removed.forEach]: the owner's thread list of [_commentInfos] is not
    tracked. *)
Definition removed_step (owner : string) (st : CommentControllerState) (thread : CommentThread)
    : CommentControllerState :=
  let p zone := sameThread owner thread zone
                && negb (String.eqb (threadId (commentThread zone)) EmptyString) in
  if existsb p (_commentWidgets st)
  then set_widgets st (remove_first p (_commentWidgets st))
  else st.

(** [changed.forEach]; opening the comments view is left out. *)
Definition changed_step (owner : string) (st : CommentControllerState) (thread : CommentThread)
    : CommentControllerState :=
  let p := sameThread owner thread in
  if existsb p (_commentWidgets st)
  then set_widgets st (update_first p thread (_commentWidgets st))
  else st.

(** [added.forEach]; the thread list of [_commentInfos] and the reserved
    gutter space are left out. *)
Definition added_step (env : Env) (uri owner : string) (st : CommentControllerState)
    (thread : CommentThread) : CommentControllerState :=
  if existsb (sameThread owner thread) (_commentWidgets st) then st else
  let pNew zone := String.eqb (zone_owner zone) owner
                   && (commentThreadHandle (commentThread zone) =? -1)
                   && equalsRange (threadRange (commentThread zone)) (threadRange thread) in
  if existsb pNew (_commentWidgets st)
  then set_widgets st (update_first pNew thread (_commentWidgets st))
  else
    let continueOnCommentText :=
      match threadRange thread with
      | Some r => removeContinueOnComment env owner uri r
      | None => None
      end in
    let pendingCommentText :=
      match cachedPendingComment st owner (threadId thread) with
      | Some text => Some text
      | None => continueOnCommentText
      end in
    let pendingEdits := cachedPendingEdits st owner (threadId thread) in
    displayCommentThread env st owner thread pendingCommentText pendingEdits.

(** The handler of [commentService.onDidUpdateCommentThreads] once the
    pending [_computePromise] has settled: the new state and the thread
    templates it requests. *)
Definition onDidUpdateCommentThreads (env : Env) (st : CommentControllerState)
    (e : CommentThreadChangedEvent) : CommentControllerState * list ServiceCall :=
  match (if hasModel env then editorURI env else None) with
  | None => (st, [])
  | Some uri =>
      if negb (isCommentingEnabled env) then (st, []) else
      let commentInfo := List.filter (fun info => String.eqb (owner info) (event_owner e)) (_commentInfos st) in
      match commentInfo with
      | [] => (st, [])
      | _ :: _ =>
          let added := List.filter (onEditorResource uri) (added e) in
          let removed := List.filter (onEditorResource uri) (removed e) in
          let changed := List.filter (onEditorResource uri) (changed e) in
          let pending := List.filter (fun p => String.eqb (pending_uri p) uri) (pending e) in
          let st := fold_left (removed_step (event_owner e)) removed st in
          let st := fold_left (changed_step (event_owner e)) changed st in
          let st := fold_left (added_step env uri (event_owner e)) added st in
          (st, map (fun p => createCommentThreadTemplate (pending_owner p) (pending_uri p) (pending_range p))
                   pending)
      end
  end.

(* ------------------------------------------------------------------ *)
(** ** [addCommentAtLine] *)

(** What [addCommentAtLine] leads to besides the state. *)
Inductive AddEffect :=
  | CreateThreadTemplate (ownerId : string) (range : option Range)  (* addCommentAtLine2 *)
  | ShowContextMenu (actions : list CommentRangeAction)
  | PickCommentProvider (actions : list CommentRangeAction)
  | AddOrToggleQueued (range : option Range) (hasEvent : bool).      (* processNextThreadToAdd *)

(** The call either throws (synchronously) or returns a promise. *)
Inductive AddOutcome :=
  | AddThrows (message : string) (st : CommentControllerState)
  | AddReturns (st : CommentControllerState) (effects : list AddEffect).

Definition set_addInProgress (st : CommentControllerState) (b : bool) : CommentControllerState :=
  mkController (_commentInfos st) (_commentWidgets st) (_pendingNewCommentCache st)
    (_pendingEditsCache st) b (_emptyThreadsToAddQueue st).

(** [processNextThreadToAdd]: clear the flag and take the next queued
    request, which is then run through [addOrToggleCommentAtLine]. *)
Definition processNextThreadToAdd (st : CommentControllerState) : CommentControllerState * list AddEffect :=
  let st := set_addInProgress st false in
  match _emptyThreadsToAddQueue st with
  | (r, ev) :: rest =>
      (mkController (_commentInfos st) (_commentWidgets st) (_pendingNewCommentCache st)
         (_pendingEditsCache st) false rest, [AddOrToggleQueued r ev])
  | [] => (st, [])
  end.

Definition addCommentAtLine2 (env : Env) (st : CommentControllerState) (range : option Range)
    (ownerId : string) : CommentControllerState * list AddEffect :=
  if negb (hasEditor env) then (st, []) else
  let '(st, effs) := processNextThreadToAdd st in
  (st, CreateThreadTemplate ownerId range :: effs).

(** [addCommentAtLine(range, e)] against the decorator's [_infos],
    decorations and marker ranges. *)
Definition addCommentAtLine (env : Env) (getActiveRange : CommentingRangeDecoration -> option Range)
    (infos : option (list ICommentInfo)) (decorations : list CommentingRangeDecoration)
    (st : CommentControllerState) (range : option Range) (hasEvent : bool) : AddOutcome :=
  let newCommentInfos := getMatchedCommentAction getActiveRange infos decorations range in
  match newCommentInfos with
  | [] => AddThrows "There are no commenting ranges at the current position." (set_addInProgress st false)
  | [info] =>
      if negb (hasModel env) then AddReturns (set_addInProgress st false) [] else
      let '(st, effs) := addCommentAtLine2 env st range (ownerId info) in
      AddReturns st effs
  | _ :: _ :: _ =>
      if negb (hasModel env) then AddReturns (set_addInProgress st false) [] else
      if hasEvent && match range with Some _ => true | None => false end
      then AddReturns st [ShowContextMenu newCommentInfos]
      else AddReturns st [PickCommentProvider newCommentInfos]
  end.

(* ------------------------------------------------------------------ *)
(** ** Editor glyphs and sample data *)

(** Modelled from the spec: [_lineHasThread] asks the editor for the
    decorations in a range ([getDecorationsInRange], not part of the
    sources); a comment-thread glyph sits on one line, so the answer is
    whether one of the glyph lines [glyphLines] is a line of the range. *)
Definition lineHasThread_glyphs (glyphLines : list Z) (r : Range) : bool :=
  existsb (fun l => line_inb l r) glyphLines.

(** The marker of a decoration that the user has not edited around: the
    lines the decoration submitted, as the model stores them (a [Range],
    whose start never comes after its end). *)
Definition marker_range (d : CommentingRangeDecoration) : option Range :=
  Some (new_Range (startLineNumber (decoration_range d)) 1 (endLineNumber (decoration_range d)) 1).

(** A provider range on lines [sl] to [el]. *)
Definition line_range (sl el : Z) : Range := mkRange sl 1 el 1.

(** A plain decoration of owner [o] for the ranges-info object [h]. *)
Definition sample_decoration (o : string) (h : nat) (sl el : Z) : CommentingRangeDecoration :=
  mkDecoration o None None (line_range sl el) decorationOptions
    (mkCommentingRanges h [line_range sl el] false) false.

Definition sample_info (o : string) (h : nat) (rs : list Range) (ts : list CommentThread) : ICommentInfo :=
  mkCommentInfo o None None (mkCommentingRanges h rs false) ts.

Definition sample_uri : string := "file:///a.ts".

(** A thread of [sample_uri] whose comments have the bodies [bodies]. *)
Definition sample_thread (tid : string) (handle : Z) (bodies : list string) : CommentThread :=
  mkCommentThread tid handle (Some (line_range 1 1)) (Some sample_uri)
    (Some (map (fun s => mkComment (BodyString s)) bodies)) false.

Definition sample_env : Env :=
  mkEnv true (Some sample_uri) true false (fun _ _ _ => None).

Definition sample_state (infos : list ICommentInfo) (ws : list ReviewZoneWidget) : CommentControllerState :=
  mkController infos ws ∅ ∅ false [].


(** The widget [displayCommentThread] creates for [thread] of [o] in
    [setComments], with the drafts cached in [st]. *)
Definition redisplayed (st : CommentControllerState) (o : string) (thread : CommentThread) :=
  createZone o thread (cachedPendingComment st o (threadId thread)) (cachedPendingEdits st o (threadId thread)).

(** The spec's example: thread [t] whose last comment is ["a"], typed
    text ["ab"], or typed text reset to ["a"]. *)
Definition draft_widget (typed : string) : ReviewZoneWidget :=
  setPendingNewComment (createZone "o" (sample_thread "t" 1 ["a"]) None None) (Some typed).

(** A widget of owner ["o"] showing a sample thread, with no draft. *)
Definition batch_widget (tid : string) (handle : Z) (bodies : list string) : ReviewZoneWidget :=
  createZone "o" (sample_thread tid handle bodies) None None.

(* ------------------------------------------------------------------ *)
(** ** The continue-on provider *)

(** An entry [{owner, uri, range, body}] of [provideContinueOnComments]. *)
Record PendingContinueComment := mkPendingContinue {
  continue_owner : string;
  continue_uri : string;
  continue_range : Range;
  continue_body : string
}.

(** [provideContinueOnComments()] of the provider the constructor
    registers; [uri] is the model uri of the controller's editor, which is
    the editor of every widget. *)
Definition provideContinueOnComments (uri : string) (widgets : list ReviewZoneWidget)
    : list PendingContinueComment :=
  fold_left (fun pendingComments zone =>
      match pendingNewComment zone, threadRange (commentThread zone) with
      | Some pendingNewComment, Some range =>
          if String.eqb pendingNewComment EmptyString then pendingComments
          else if option_string_eqb (Some pendingNewComment) (lastCommentBody (commentThread zone))
          then pendingComments
          else pendingComments ++ [mkPendingContinue (zone_owner zone) uri range pendingNewComment]
      | _, _ => pendingComments
      end) widgets [].

(* ------------------------------------------------------------------ *)
(** ** [onDidDeleteDataProvider] *)

(** The handler of [commentService.onDidDeleteDataProvider(ownerId)] up to
    the [beginCompute()] it starts. *)
Definition onDidDeleteDataProvider (st : CommentControllerState) (ownerId : option string)
    : CommentControllerState :=
  let reset := mkController (_commentInfos st) (_commentWidgets st) ∅ ∅
                 (_addInProgress st) (_emptyThreadsToAddQueue st) in
  match ownerId with
  | Some o =>
      if String.eqb o EmptyString then reset
      else mkController (_commentInfos st) (_commentWidgets st)
             (delete o (_pendingNewCommentCache st)) (delete o (_pendingEditsCache st))
             (_addInProgress st) (_emptyThreadsToAddQueue st)
  | None => reset
  end.

(** The owner and thread id of a widget. *)
Definition widget_key (zone : ReviewZoneWidget) : string * string :=
  (zone_owner zone, threadId (commentThread zone)).

(* ------------------------------------------------------------------ *)
(** ** Reserved gutter space *)

(** [s.split(' ')]. *)
Fixpoint split_space (s : string) : list string :=
  match s with
  | EmptyString => [EmptyString]
  | String c t =>
      let parts := split_space t in
      if Ascii.eqb c " "%char then EmptyString :: parts
      else match parts with
           | p :: rest => String c p :: rest
           | [] => [String c EmptyString]
           end
  end.

(** [names.join(' ')]. *)
Fixpoint join_space (names : list string) : string :=
  match names with
  | [] => EmptyString
  | [n] => n
  | n :: rest => String.append n (String " "%char (join_space rest))
  end.

(** The editor options the reserved space reads and writes, as the editor
    holds them: [getRawOptions().extraEditorClassName], the width
    [getOption(EditorOption.lineDecorationsWidth)] (the number last given
    to [updateOptions]), [folding], and whether [showFoldingControls] is
    ['never']. *)
Record EditorLayout := mkLayout {
  extraEditorClassName : option string;
  lineDecorationsWidth : Z;
  folding : bool;
  showFoldingControlsNever : bool
}.

Definition getExistingCommentEditorOptions (editor : EditorLayout) : Z * list string :=
  (lineDecorationsWidth editor,
   match extraEditorClassName editor with
   | Some configuredExtraClassName =>
       if String.eqb configuredExtraClassName EmptyString then []
       else split_space configuredExtraClassName
   | None => []
   end).

Definition getWithoutCommentsEditorOptions (editor : EditorLayout) (extraEditorClassName : list string)
    (startingLineDecorationsWidth : Z) : list string * Z :=
  let extraEditorClassName :=
    remove_first (fun name => String.eqb name "inline-comment") extraEditorClassName in
  let lineDecorationsWidth :=
    if folding editor && negb (showFoldingControlsNever editor)
    then startingLineDecorationsWidth + 11 else startingLineDecorationsWidth in
  (extraEditorClassName, lineDecorationsWidth - 24).

Definition getWithCommentsEditorOptions (editor : EditorLayout) (extraEditorClassName : list string)
    (startingLineDecorationsWidth : Z) : Z * list string :=
  let lineDecorationsWidth :=
    if folding editor && negb (showFoldingControlsNever editor)
    then startingLineDecorationsWidth - 11 else startingLineDecorationsWidth in
  (lineDecorationsWidth + 24, extraEditorClassName ++ ["inline-comment"]).

Definition updateEditorLayoutOptions (editor : EditorLayout) (extraEditorClassName : list string)
    (lineDecorationsWidth : Z) : EditorLayout :=
  mkLayout (Some (join_space extraEditorClassName)) lineDecorationsWidth
    (folding editor) (showFoldingControlsNever editor).

Definition hasCommentsOrRanges (commentInfos : list ICommentInfo) : bool :=
  existsb (fun info =>
      negb (Nat.eqb (length (ranges (commentingRanges info))) 0)
      || Nat.ltb 0 (length (threads info))) commentInfos.

(** [tryUpdateReservedSpace()]: the editor's options (none without an
    editor) and [_commentingRangeSpaceReserved], before and after. *)
Definition tryUpdateReservedSpace (editor : option EditorLayout) (commentInfos : list ICommentInfo)
    (isCommentingEnabled : bool) (reserved : bool) : option EditorLayout * bool :=
  match editor with
  | None => (None, reserved)
  | Some editor =>
      let hasCommentsOrRanges := hasCommentsOrRanges commentInfos in
      if hasCommentsOrRanges && negb reserved && isCommentingEnabled then
        let '(lineDecorationsWidth, extraEditorClassName) := getExistingCommentEditorOptions editor in
        let '(w, names) := getWithCommentsEditorOptions editor extraEditorClassName lineDecorationsWidth in
        (Some (updateEditorLayoutOptions editor names w), true)
      else if (negb hasCommentsOrRanges || negb isCommentingEnabled) && reserved then
        let '(lineDecorationsWidth, extraEditorClassName) := getExistingCommentEditorOptions editor in
        let '(names, w) := getWithoutCommentsEditorOptions editor extraEditorClassName lineDecorationsWidth in
        (Some (updateEditorLayoutOptions editor names w), false)
      else (Some editor, reserved)
  end.

(* ------------------------------------------------------------------ *)
(** ** Editor events *)

(** [decoration.options.description] of a decoration on the cursor line. *)
Inductive DecorationDescription :=
  | CommentGlyphDescription          (* CommentGlyphWidget.description *)
  | CommentingRangeDescription       (* CommentingRangeDecorator.description *)
  | OtherDescription.

(** The [for (const decoration of decorations)] loop of
    [onEditorChangeCursorPosition]. *)
Fixpoint cursor_decorations_loop (decorations : list DecorationDescription)
    (hasCommentingRange : bool) : bool :=
  match decorations with
  | [] => hasCommentingRange
  | CommentGlyphDescription :: _ => false
  | CommentingRangeDescription :: rest => cursor_decorations_loop rest true
  | OtherDescription :: rest => cursor_decorations_loop rest hasCommentingRange
  end.

(** [onEditorChangeCursorPosition(e)]: the value it sets on the
    [activeCursorHasCommentingRange] context key; [decorations] are the
    decorations of the cursor line, [None] without a position or editor. *)
Definition onEditorChangeCursorPosition (decorations : option (list DecorationDescription)) : bool :=
  match decorations with
  | Some decorations => cursor_decorations_loop decorations false
  | None => false
  end.

(** [onEditorMouseUp(e)]: the selection it sets on the editor and the
    range it hands to [addOrToggleCommentAtLine], if any.
    [matchedLineNumber] is [isMouseUpEventDragFromMouseDown(...)], the line
    of the mouse-down of a gutter drag; [hasElement] and
    [mouseUpIsOnDecorator] describe [e.target.element]; [editorSelection]
    is [this.editor.getSelection()]. *)
Definition onEditorMouseUp (hasEditor : bool) (matchedLineNumber : option Z) (hasElement : bool)
    (mouseUpIsOnDecorator : bool) (lineNumber : Z) (getLineLength : Z -> Z)
    (editorSelection : option Range) : option Range * option Range :=
  match matchedLineNumber with
  | None => (None, None)
  | Some matchedLineNumber =>
      if negb hasEditor || negb hasElement then (None, None) else
      let selection :=
        if negb (matchedLineNumber =? lineNumber) then
          if lineNumber <? matchedLineNumber
          then Some (new_Range matchedLineNumber (getLineLength matchedLineNumber + 1) lineNumber 1)
          else Some (new_Range matchedLineNumber 1 lineNumber (getLineLength lineNumber + 1))
        else if mouseUpIsOnDecorator then editorSelection
        else None in
      let on_decorator :=
        if mouseUpIsOnDecorator then (None, Some (new_Range lineNumber 1 lineNumber 1))
        else (None, None) in
      match selection with
      | Some selection =>
          if (startLineNumber selection <=? lineNumber) && (lineNumber <=? endLineNumber selection)
          then (Some (new_Range (endLineNumber selection) 1 (endLineNumber selection) 1), Some selection)
          else on_decorator
      | None => on_decorator
      end
  end.

(* ------------------------------------------------------------------ *)
(** ** [addOrToggleCommentAtLine] *)

Inductive AddOrToggleOutcome :=
  (** the request is queued behind the add in progress *)
  | Queued (st : CommentControllerState)
  (** widgets already at the line are collapsed ([expand = false]) or
      expanded, and the next queued request is taken *)
  | Toggled (zones : list ReviewZoneWidget) (expand : bool)
      (st : CommentControllerState) (effects : list AddEffect)
  (** [addCommentAtLine(commentRange, e)] runs *)
  | Added (outcome : AddOutcome).

(** [addOrToggleCommentAtLine(commentRange, e)]; [getGlyphPosition] and
    [expanded] read a widget's glyph line and whether it is expanded. *)
Definition addOrToggleCommentAtLine (env : Env)
    (getActiveRange : CommentingRangeDecoration -> option Range)
    (infos : option (list ICommentInfo)) (decorations : list CommentingRangeDecoration)
    (getGlyphPosition : ReviewZoneWidget -> Z) (expanded : ReviewZoneWidget -> bool)
    (st : CommentControllerState) (commentRange : option Range) (hasEvent : bool)
    : AddOrToggleOutcome :=
  if negb (_addInProgress st) then
    let st := set_addInProgress st true in
    let line := match commentRange with Some r => endLineNumber r | None => 0 end in
    let existingCommentsAtLine :=
      List.filter (fun widget => getGlyphPosition widget =? line) (_commentWidgets st) in
    match existingCommentsAtLine with
    | _ :: _ =>
        let allExpanded := forallb expanded existingCommentsAtLine in
        let '(st, effects) := processNextThreadToAdd st in
        Toggled existingCommentsAtLine (negb allExpanded) st effects
    | [] => Added (addCommentAtLine env getActiveRange infos decorations st commentRange hasEvent)
    end
  else
    Queued (mkController (_commentInfos st) (_commentWidgets st) (_pendingNewCommentCache st)
              (_pendingEditsCache st) (_addInProgress st)
              (_emptyThreadsToAddQueue st ++ [(commentRange, hasEvent)])).

(* ------------------------------------------------------------------ *)
(** ** Hover and selection of [CommentingRangeDecorator] *)

(** Modelled from the spec: [Range.isEmpty()] (vs/editor is not part of
    the sources): the start and end positions are equal. *)
Definition isEmpty (r : Range) : bool :=
  (startLineNumber r =? endLineNumber r) && (startColumn r =? endColumn r).

(** The fields of a [CommentingRangeDecorator]. *)
Record DecoratorState := mkDecorator {
  dec_editor : bool;                 (* this._editor is set *)
  _infos : option (list ICommentInfo);
  _lastHover : Z;
  _lastSelection : option Range;
  _lastSelectionCursor : option Z;
  commentingRangeDecorations : list CommentingRangeDecoration
}.

Section Decorator.

Variable lineHasThread : Range -> bool.
(** [editor.getModel()] is set. *)
Variable modelPresent : bool.

(** [_doUpdate(editor, commentInfos, emphasisLine, selectionRange)]: the
    new state and the count fired on [onDidChangeDecorationsCount]. *)
Definition decorator_doUpdate (st : DecoratorState) (commentInfos : list ICommentInfo)
    (emphasisLine : Z) (selectionRange : option Range) : DecoratorState * option nat :=
  match _doUpdate lineHasThread modelPresent (_lastSelectionCursor st) commentInfos emphasisLine
          selectionRange with
  | None => (st, None)
  | Some decorations =>
      (mkDecorator (dec_editor st) (_infos st) (_lastHover st) (_lastSelection st)
         (_lastSelectionCursor st) decorations,
       if Nat.eqb (length (commentingRangeDecorations st)) (length decorations) then None
       else Some (length decorations))
  end.

(** [updateHover(hoverLine)]. *)
Definition updateHover (st : DecoratorState) (hoverLine : option Z) : DecoratorState * option nat :=
  let hoverChanged := match hoverLine with Some h => negb (h =? _lastHover st) | None => true end in
  let '(st, fired) :=
    match _infos st with
    | Some infos =>
        if dec_editor st && hoverChanged
        then decorator_doUpdate st infos (default (-1) hoverLine) (_lastSelection st)
        else (st, None)
    | None => (st, None)
    end in
  (mkDecorator (dec_editor st) (_infos st) (default (-1) hoverLine) (_lastSelection st)
     (_lastSelectionCursor st) (commentingRangeDecorations st), fired).

(** [updateSelection(cursorLine, range)]; [range] defaults to
    [new Range(0, 0, 0, 0)]. *)
Definition updateSelection (st : DecoratorState) (cursorLine : Z) (range : option Range)
    : DecoratorState * option nat :=
  let range := match range with Some r => r | None => new_Range 0 0 0 0 end in
  let st := mkDecorator (dec_editor st) (_infos st) (_lastHover st)
              (if isEmpty range then None else Some range)
              (if isEmpty range then None else Some cursorLine)
              (commentingRangeDecorations st) in
  match _infos st with
  | Some infos => if dec_editor st then decorator_doUpdate st infos cursorLine (Some range) else (st, None)
  | None => (st, None)
  end.

End Decorator.

(** [onEditorChangeCursorSelection(e)] of the controller: [position] is the
    line of [this.editor?.getPosition()], [selection] is [e?.selection]
    (none when the editor loses focus). *)
Definition onEditorChangeCursorSelection (lineHasThread : Range -> bool) (modelPresent : bool)
    (dec : DecoratorState) (position : option Z) (selection : option Range)
    : DecoratorState * option nat :=
  match position with
  | Some p => if p =? 0 then (dec, None) else updateSelection lineHasThread modelPresent dec p selection
  | None => (dec, None)
  end.

(* ------------------------------------------------------------------ *)
(** ** [_findNearestCommentThread] *)

(** The comparator handed to [this._commentWidgets.sort]. *)
Definition compareThreadWidgets (reverse : bool) (a b : ReviewZoneWidget) : Z :=
  let '(a, b) := if reverse then (b, a) else (a, b) in
  match threadRange (commentThread a), threadRange (commentThread b) with
  | None, _ => -1
  | _, None => 1
  | Some ra, Some rb =>
      if startLineNumber ra <? startLineNumber rb then -1
      else if startLineNumber rb <? startLineNumber ra then 1
      else if startColumn ra <? startColumn rb then -1
      else if startColumn rb <? startColumn ra then 1
      else 0
  end.

(** The predicate handed to [findFirstIdxMonotonousOrArrLen]; [after] is
    the end of the editor's selection. *)
Definition threadIsPastCursor (reverse : bool) (after : Position) (widget : ReviewZoneWidget) : bool :=
  let startLine := match threadRange (commentThread widget) with
                   | Some r => startLineNumber r | None => 0 end in
  let startCol := match threadRange (commentThread widget) with
                  | Some r => startColumn r | None => 0 end in
  let lineValueOne := if reverse then lineNumber after else startLine in
  let lineValueTwo := if reverse then startLine else lineNumber after in
  let columnValueOne := if reverse then column after else startCol in
  let columnValueTwo := if reverse then startCol else column after in
  if lineValueTwo <? lineValueOne then true
  else if lineValueOne <? lineValueTwo then false
  else columnValueTwo <? columnValueOne.


(** A widget of owner ["o"] whose thread starts on line [sl]. *)
Definition range_widget (sl : Z) : ReviewZoneWidget :=
  createZone "o" (mkCommentThread "t" 1 (Some (line_range sl sl)) (Some sample_uri) None false) None None.

(* ------------------------------------------------------------------ *)
(** * Proofs *)

(** Case on every integer comparison of the goal, then compute. *)
Ltac z_cases :=
  repeat lazymatch goal with
  | |- context [?x =? ?y] => destruct (Z.eqb_spec x y)
  | |- context [?x <? ?y] => destruct (Z.ltb_spec x y)
  | |- context [?x <=? ?y] => destruct (Z.leb_spec x y)
  end; simpl.

Lemma new_Range_wf r : wf_range r ->
  new_Range (startLineNumber r) (startColumn r) (endLineNumber r) (endColumn r) = r.
Proof.
  destruct r as [sl sc el ec]; unfold wf_range, new_Range; simpl; intros H.
  z_cases; auto; lia.
Qed.

Lemma new_Range_lines sl el : sl <= el -> new_Range sl 1 el 1 = mkRange sl 1 el 1.
Proof. intros H; unfold new_Range; z_cases; auto; lia. Qed.

Lemma intersectRanges_lines a b i : intersectRanges a b = Some i ->
  startLineNumber a <= startLineNumber i <= endLineNumber i /\ endLineNumber i <= endLineNumber a.
Proof.
  destruct a as [asl asc ael aec], b as [bsl bsc bel bec]; unfold intersectRanges, new_Range; simpl.
  z_cases; intros Hs; inversion Hs; subst; simpl; lia.
Qed.

Lemma collapseToStart_eq r :
  collapseToStart r = mkRange (startLineNumber r) (startColumn r) (startLineNumber r) (startColumn r).
Proof. unfold collapseToStart, new_Range; z_cases; auto; lia. Qed.

Ltac count_solve :=
  let l := fresh "l" in
  intro l; unfold count_lines, line_inb; simpl; z_cases; lia.

Ltac else_if_tac :=
  match goal with
  | |- context [(?a <=? ?e) && (?e <=? ?b)] =>
      destruct (Z.leb_spec a e); destruct (Z.leb_spec e b); simpl;
      [ destruct (Z.ltb_spec a e); destruct (Z.ltb_spec e b); simpl;
        repeat rewrite new_Range_lines by lia; count_solve
      | count_solve .. ]
  end.

Lemma doUpdate_range_tiles_nothread info emphasisLine selectionRange R :
  wf_range R -> single_line_misroute emphasisLine selectionRange R = false ->
  tiles (doUpdate_range (fun _ => false) info emphasisLine selectionRange R) R.
Proof.
  intros Hwf Hmis. unfold single_line_misroute in Hmis. unfold doUpdate_range.
  rewrite (new_Range_wf R Hwf) in *.
  assert (HR : startLineNumber R <= endLineNumber R) by (destruct Hwf; lia).
  destruct selectionRange as [s|];
    [destruct (intersectRanges R s) as [isr|] eqn:Hi|].
  - apply intersectRanges_lines in Hi.
    destruct (Z.leb_spec 0 emphasisLine);
      destruct (Z.eqb_spec (startLineNumber isr) (endLineNumber isr));
      destruct (Z.eqb_spec emphasisLine (startLineNumber isr)); simpl in Hmis |- *;
      try discriminate; try else_if_tac.
    all: destruct (Z.leb_spec emphasisLine (startLineNumber isr)); simpl;
      rewrite ?collapseToStart_eq, ?new_Range_lines by lia; simpl.
    all: first [rewrite Z.min_l by lia | rewrite Z.min_r by lia];
         first [rewrite Z.max_r by lia | rewrite Z.max_l by lia].
    all: destruct (Z.leb_spec (startLineNumber R) (startLineNumber isr - 1));
         destruct (Z.leb_spec (endLineNumber isr + 1) (endLineNumber R)); simpl;
         rewrite ?new_Range_lines by lia; count_solve.
  - else_if_tac.
  - else_if_tac.
Qed.

(* ------------------------------------------------------------------ *)
(** ** Lemmas on the string-keyed map *)

Lemma map_get_set_eq {V} k (v : V) m : map_get k (map_set k v m) = Some v.
Proof.
  induction m as [|[k' v'] t IH]; simpl.
  - rewrite String.eqb_refl; auto.
  - destruct (String.eqb_spec k k'); simpl.
    + subst; rewrite String.eqb_refl; auto.
    + apply String.eqb_neq in n; rewrite n; auto.
Qed.


Lemma map_set_in {V} k (v : V) m k' v' :
  In (k', v') (map_set k v m) -> In (k', v') m \/ (k' = k /\ v' = v).
Proof.
  induction m as [|[k0 v0] t IH]; simpl.
  - intros [H|[]]; inversion H; auto.
  - destruct (String.eqb_spec k k0); simpl.
    + intros [H|H]; [inversion H; subst; auto|auto].
    + intros [H|H]; [auto|destruct (IH H); auto].
Qed.

Lemma map_set_keys {V} k (v : V) m :
  map fst (map_set k v m) = map fst m \/ map fst (map_set k v m) = map fst m ++ [k] /\ ~ In k (map fst m).
Proof.
  induction m as [|[k0 v0] t IH]; simpl.
  - right; auto.
  - destruct (String.eqb_spec k k0); simpl.
    + left; auto.
    + destruct IH as [->|[-> Hn]]; [left; auto|right; split; auto].
      intros [H|H]; auto.
Qed.

Lemma map_set_nodup {V} k (v : V) m : List.NoDup (map fst m) -> List.NoDup (map fst (map_set k v m)).
Proof.
  intros Hn; destruct (map_set_keys k v m) as [->|[-> Hk]]; auto.
  revert Hn Hk; generalize (map fst m) as l; induction l as [|x l IH]; simpl; intros Hn Hk.
  - repeat constructor; auto.
  - inversion Hn; subst; constructor.
    + rewrite in_app_iff; simpl; intuition.
    + apply IH; auto.
Qed.


(* ------------------------------------------------------------------ *)
(** ** The accumulator of [getMatchedCommentAction] *)

Section MatchedProofs.

Variable getActiveRange : CommentingRangeDecoration -> option Range.

(** Every entry is stored under the owner of its action, once per key. *)
Definition found_wf (m : list (string * FoundAction)) : Prop :=
  (forall k v, In (k, v) m -> ownerId (fa_action v) = k) /\ List.NoDup (map fst m).

Lemma step_wf commentRange m d :
  found_wf m -> found_wf (foundHoverActions_step getActiveRange commentRange m d).
Proof.
  intros [Hk Hn]; unfold foundHoverActions_step.
  assert (Hset : forall v, ownerId (fa_action v) = ownerId (getCommentAction d) ->
            found_wf (map_set (ownerId (getCommentAction d)) v m)).
  { intros v Hv; split; [|apply map_set_nodup; auto].
    intros k' v' Hin; destruct (map_set_in _ _ _ _ _ Hin) as [H|[-> ->]]; auto. }
  destruct (getActiveRange d) as [r|]; [|split; auto].
  destruct (areRangesIntersectingOrTouchingByLine r commentRange); [|split; auto].
  destruct (map_get _ m) as [a|]; [destruct (Nat.eqb _ _)|]; apply Hset; reflexivity.
Qed.

Lemma foundHoverActions_wf commentRange ds :
  found_wf (foundHoverActions getActiveRange commentRange ds).
Proof.
  unfold foundHoverActions.
  assert (H0 : found_wf []) by (split; [intros k v []|constructor]).
  revert H0; generalize (@nil (string * FoundAction)).
  induction ds as [|d ds IH]; simpl; intros m Hm; auto.
  apply IH, step_wf; auto.
Qed.

Lemma result_owners infos commentRange ds :
  map ownerId (getMatchedCommentAction getActiveRange infos ds (Some commentRange))
  = map fst (List.filter (fun entry =>
            (startLineNumber (fa_range (snd entry)) <=? startLineNumber commentRange)
            && (endLineNumber commentRange <=? endLineNumber (fa_range (snd entry))))
          (foundHoverActions getActiveRange commentRange ds)).
Proof.
  simpl. destruct (foundHoverActions_wf commentRange ds) as [Hk _].
  induction (foundHoverActions getActiveRange commentRange ds) as [|[k v] t IH]; simpl; auto.
  destruct (_ && _); simpl; rewrite IH; auto.
  - f_equal; apply (Hk k v); left; auto.
  - intros; apply (Hk k0 v0); right; auto.
  - intros; apply (Hk k0 v0); right; auto.
Qed.

Lemma nodup_filter_keys {V} (p : string * V -> bool) m :
  List.NoDup (map fst m) -> List.NoDup (map fst (List.filter p m)).
Proof.
  induction m as [|[k v] t IH]; simpl; intros Hn; [constructor|].
  inversion Hn; subst. destruct (p (k, v)); simpl; auto.
  constructor; auto. intros Hin; apply H1.
  apply in_map_iff in Hin as ([k' v'] & Hk & Hin); simpl in Hk; subst.
  apply filter_In in Hin as [Hin _]; apply (in_map fst) in Hin; auto.
Qed.

Lemma lines_hull_app rs r :
  lines_hull (rs ++ [r]) =
  Some (match lines_hull rs with
        | None => (startLineNumber r, endLineNumber r)
        | Some (lo, hi) => (Z.min lo (startLineNumber r), Z.max hi (endLineNumber r))
        end).
Proof. unfold lines_hull; rewrite fold_left_app; reflexivity. Qed.

Lemma lines_hull_nil_iff rs : lines_hull rs = None <-> rs = [].
Proof.
  destruct rs as [|r rs] using rev_ind; [simpl; tauto|].
  rewrite lines_hull_app; split; [discriminate|intros H; destruct rs; discriminate].
Qed.




Section Owner.

Variable O : string.
Variable commentRange : Range.
Variable ds0 : list CommentingRangeDecoration.

(** All the decorations of [O] come from one [commentingRangesInfo]. *)
Hypothesis one_info : forall d d', In d ds0 -> In d' ds0 -> crd_ownerId d = O -> crd_ownerId d' = O ->
  cr_handle (crd_commentingRangesInfo d) = cr_handle (crd_commentingRangesInfo d').
(** The editor's markers are ranges whose start comes before their end. *)
Hypothesis active_wf : forall d r, getActiveRange d = Some r -> startLineNumber r <= endLineNumber r.


End Owner.

End MatchedProofs.

(* ------------------------------------------------------------------ *)
(** ** Lemmas on [getNearestCommentingRange] *)

Lemma nearest_loop_skip (getActiveRange : CommentingRangeDecoration -> option Range)
    (findPosition : Position) (reverse : bool) (ds : list CommentingRangeDecoration) :
  (forall d r, In d ds -> getActiveRange d = Some r ->
     ~ line_in (lineNumber findPosition) r
     /\ (if reverse then ~ endLineNumber r < lineNumber findPosition
         else ~ lineNumber findPosition < startLineNumber r)) ->
  nearest_loop getActiveRange findPosition reverse None ds = None.
Proof.
  induction ds as [|d ds IH]; simpl; intros Hall; auto.
  assert (IH' : nearest_loop getActiveRange findPosition reverse None ds = None)
    by (apply IH; intros; eapply Hall; eauto).
  destruct (getActiveRange d) as [r|] eqn:Hr; auto.
  destruct (Hall d r (or_introl eq_refl) Hr) as [Hin Hdir]; unfold line_in in Hin.
  destruct reverse; simpl; z_cases; auto; lia.
Qed.

Lemma rev_head {A} (d0 : A) rest : exists t, rev (d0 :: rest) = List.last (d0 :: rest) d0 :: t.
Proof.
  induction rest as [|x r _] using rev_ind; [exists []; reflexivity|].
  rewrite app_comm_cons, List.last_last, rev_app_distr; simpl; eauto.
Qed.

(* ------------------------------------------------------------------ *)
(** ** Claims on [_doUpdate] *)

(** Glyph lines only drop hover pieces: the decorations emitted for a
    range are those emitted when no line has a thread, less the hover
    pieces whose range holds a glyph. *)
Lemma doUpdate_range_threads lineHasThread info emphasisLine selectionRange R :
  doUpdate_range lineHasThread info emphasisLine selectionRange R
  = List.filter (fun d => negb (is_hover d && lineHasThread (crd_range d)))
      (doUpdate_range (fun _ => false) info emphasisLine selectionRange R).
Proof.
  unfold doUpdate_range; cbv zeta.
  repeat (case_match; simpl; rewrite ?filter_app; simpl); try reflexivity.
  all: repeat first [ progress (rewrite ?filter_app; simpl)
                    | match goal with |- context [if ?b then _ else _] => destruct b eqn:? end ].
  all: reflexivity.
Qed.

(** The hover pieces are one line long. *)
Lemma doUpdate_range_hover_one_line lineHasThread info emphasisLine selectionRange R :
  Forall (fun d => is_hover d = true -> startLineNumber (crd_range d) = endLineNumber (crd_range d))
    (doUpdate_range lineHasThread info emphasisLine selectionRange R).
Proof.
  unfold doUpdate_range; cbv zeta.
  repeat (case_match; simpl);
    repeat match goal with H : (_, _) = (_, _) |- _ => injection H as <- <- end;
    rewrite ?Forall_app; repeat split; repeat constructor; simpl; try discriminate;
    intros _; rewrite ?collapseToStart_eq; unfold new_Range; z_cases; reflexivity.
Qed.

(** Hover pieces that survive have no glyph in their range. *)
Lemma doUpdate_range_hover_no_thread lineHasThread info emphasisLine selectionRange R d :
  In d (doUpdate_range lineHasThread info emphasisLine selectionRange R) ->
  is_hover d = true -> lineHasThread (crd_range d) = false.
Proof.
  rewrite doUpdate_range_threads; intros Hd Hh.
  apply filter_In in Hd as [_ Hd]; rewrite Hh in Hd; simpl in Hd.
  destruct (lineHasThread (crd_range d)); auto.
Qed.

Lemma _doUpdate_in lineHasThread hasModel cursor commentInfos emphasisLine selectionRange ds d :
  _doUpdate lineHasThread hasModel cursor commentInfos emphasisLine selectionRange = Some ds ->
  In d ds ->
  exists info R e, In info commentInfos /\ In R (ranges (commentingRanges info))
    /\ In d (doUpdate_range lineHasThread info e selectionRange R).
Proof.
  unfold _doUpdate; destruct hasModel; simpl; [|discriminate].
  intros Hs; inversion Hs; subst; intros Hd.
  apply in_flat_map in Hd as (info & Hi & Hd); apply in_flat_map in Hd as (R & HR & Hd).
  eauto 7.
Qed.

(** C1 (amended): unless the selection meets [R] on a single line while
    the emphasis line is another one, the pieces [_doUpdate] computes for
    a provider range [R] tile [R] by line (no line of [R] in two pieces,
    every line of [R] in one, no line outside [R]); the pieces it emits
    are these less the one-line hover piece when a thread glyph lies on
    its line. *)
Theorem doUpdate_range_tiles lineHasThread info emphasisLine selectionRange R :
  wf_range R -> single_line_misroute emphasisLine selectionRange R = false ->
  tiles (doUpdate_range (fun _ => false) info emphasisLine selectionRange R) R
  /\ doUpdate_range lineHasThread info emphasisLine selectionRange R
     = List.filter (fun d => negb (is_hover d && lineHasThread (crd_range d)))
         (doUpdate_range (fun _ => false) info emphasisLine selectionRange R)
  /\ Forall (fun d => is_hover d = true -> startLineNumber (crd_range d) = endLineNumber (crd_range d))
       (doUpdate_range (fun _ => false) info emphasisLine selectionRange R).
Proof.
  intros Hwf Hmis; split; [|split].
  - apply doUpdate_range_tiles_nothread; auto.
  - apply doUpdate_range_threads.
  - apply doUpdate_range_hover_one_line.
Qed.

Lemma doUpdate_range_tiles_witness :
  let info := sample_info "o" 1 [line_range 1 3] [] in
  tiles (doUpdate_range (fun _ => false) info 2 None (line_range 1 3)) (line_range 1 3)
  /\ doUpdate_range (lineHasThread_glyphs [2]) info 2 None (line_range 1 3)
     = List.filter (fun d => negb (is_hover d && lineHasThread_glyphs [2] (crd_range d)))
         (doUpdate_range (fun _ => false) info 2 None (line_range 1 3))
  /\ Forall (fun d => is_hover d = true -> startLineNumber (crd_range d) = endLineNumber (crd_range d))
       (doUpdate_range (fun _ => false) info 2 None (line_range 1 3)).
Proof.
  apply (doUpdate_range_tiles (lineHasThread_glyphs [2]) (sample_info "o" 1 [line_range 1 3] [])
           2 None (line_range 1 3)).
  - unfold wf_range; simpl; lia.
  - reflexivity.
Defined.

(** The tiling read as stated, in every case: a thread glyph on the
    emphasis line 2 of the range of lines 1 to 3 leaves line 2 out. *)
Lemma doUpdate_range_tiles_counterexample :
  ~ tiles (doUpdate_range (lineHasThread_glyphs [2]) (sample_info "o" 1 [line_range 1 3] [])
             2 None (line_range 1 3)) (line_range 1 3).
Proof. intros H; specialize (H 2); vm_compute in H; discriminate. Qed.

(** The case left out: a selection from line 5 to line 7 with the cursor
    on line 7 meets the one-line range of line 5 on line 5 only; the
    multi-line piece is then lines 4 to 5, outside the range and over
    the hover piece of line 5. *)
Example doUpdate_range_single_line_selection :
  single_line_misroute 7 (Some (mkRange 5 1 7 1)) (mkRange 5 1 5 10) = true
  /\ map crd_range (doUpdate_range (fun _ => false) (sample_info "o" 1 [mkRange 5 1 5 10] [])
                      7 (Some (mkRange 5 1 7 1)) (mkRange 5 1 5 10))
     = [line_range 4 5; line_range 5 5].
Proof. split; vm_compute; reflexivity. Qed.

(** C5: in every recompute, no hover piece lies on a line that holds a
    comment-thread glyph. *)
Theorem _doUpdate_hover_avoids_glyphs glyphLines hasModel cursor commentInfos emphasisLine
    selectionRange ds d l :
  _doUpdate (lineHasThread_glyphs glyphLines) hasModel cursor commentInfos emphasisLine
    selectionRange = Some ds ->
  In d ds -> crd_options d = hoverDecorationOptions -> line_in l (crd_range d) ->
  ~ In l glyphLines.
Proof.
  intros Hs Hd Ho Hl Hg.
  destruct (_doUpdate_in _ _ _ _ _ _ _ _ Hs Hd) as (info & R & e & _ & _ & Hd').
  assert (Hh : is_hover d = true) by (unfold is_hover; rewrite Ho; reflexivity).
  pose proof (doUpdate_range_hover_no_thread _ _ _ _ _ _ Hd' Hh) as Hn.
  unfold lineHasThread_glyphs in Hn.
  assert (existsb (fun l => line_inb l (crd_range d)) glyphLines = true); [|congruence].
  apply existsb_exists; exists l; split; auto.
  unfold line_inb, line_in in *; apply andb_true_intro; split; apply Z.leb_le; lia.
Qed.

Lemma _doUpdate_hover_avoids_glyphs_witness : ~ In 3 [7].
Proof.
  apply (_doUpdate_hover_avoids_glyphs [7] true None [sample_info "o" 1 [line_range 1 5] []] 3 None
           (doUpdate_range (lineHasThread_glyphs [7]) (sample_info "o" 1 [line_range 1 5] []) 3 None
              (line_range 1 5))
           (mkDecoration "o" None None (line_range 3 3) hoverDecorationOptions
              (mkCommentingRanges 1 [line_range 1 5] false) true) 3).
  - reflexivity.
  - vm_compute; auto.
  - reflexivity.
  - unfold line_in; simpl; lia.
Defined.

(** C10: every commenting-range decoration submits whole lines: columns
    1, and the first and last line of its original range. *)
Theorem decoration_range_whole_lines d :
  startColumn (decoration_range d) = 1 /\ endColumn (decoration_range d) = 1
  /\ startLineNumber (decoration_range d) = startLineNumber (getOriginalRange d)
  /\ endLineNumber (decoration_range d) = endLineNumber (getOriginalRange d).
Proof. repeat split. Qed.

Example decoration_range_example :
  map decoration_range
    (match _doUpdate (fun _ => false) true None [sample_info "o" 1 [mkRange 3 5 4 9] []] (-1) None with
     | Some ds => ds | None => [] end)
  = [mkRange 3 1 4 1].
Proof. vm_compute; reflexivity. Qed.

(* ------------------------------------------------------------------ *)
(** ** Claims on [getMatchedCommentAction] and [addCommentAtLine] *)







(** The spec's example: claims on lines 1 and 2 merge to lines 1 to 2. *)
Example getMatchedCommentAction_example :
  map ownerId (getMatchedCommentAction marker_range None
     [sample_decoration "O" 1 1 1; sample_decoration "O" 1 2 2] (Some (line_range 1 2))) = ["O"]
  /\ map ownerId (getMatchedCommentAction marker_range None
     [sample_decoration "O" 1 1 1; sample_decoration "O" 1 2 2] (Some (line_range 1 3))) = [].
Proof. split; vm_compute; reflexivity. Qed.

(** C9: at most one action per owner; and an owner's decoration that
    touches the hit range through another ranges-info object than the one
    stored replaces the stored entry with its own range and action. *)
Theorem getMatchedCommentAction_one_per_owner getActiveRange infos decorations H :
  List.NoDup (map ownerId (getMatchedCommentAction getActiveRange infos decorations (Some H)))
  /\ (forall d r, getActiveRange d = Some r -> areRangesIntersectingOrTouchingByLine r H = true ->
       (forall a, map_get (crd_ownerId d) (foundHoverActions getActiveRange H decorations) = Some a ->
          cr_handle (commentingRangesInfo (fa_action a)) <> cr_handle (crd_commentingRangesInfo d)) ->
       map_get (crd_ownerId d) (foundHoverActions getActiveRange H (decorations ++ [d]))
       = Some (mkFound r (getCommentAction d))).
Proof.
  split.
  - rewrite result_owners; apply nodup_filter_keys, foundHoverActions_wf.
  - intros d r Hr Ht Hdiff; unfold foundHoverActions in *.
    rewrite fold_left_app; simpl; unfold foundHoverActions_step at 1.
    rewrite Hr, Ht; simpl.
    destruct (map_get (crd_ownerId d) _) as [a|] eqn:Ha.
    + specialize (Hdiff a eq_refl).
      destruct (Nat.eqb_spec (cr_handle (commentingRangesInfo (fa_action a)))
                  (cr_handle (crd_commentingRangesInfo d))); [contradiction|].
      apply map_get_set_eq.
    + apply map_get_set_eq.
Qed.

Lemma getMatchedCommentAction_one_per_owner_witness :
  map_get "O" (foundHoverActions marker_range (line_range 1 1)
                 ([sample_decoration "O" 1 1 1] ++ [sample_decoration "O" 2 1 1]))
  = Some (mkFound (line_range 1 1) (getCommentAction (sample_decoration "O" 2 1 1))).
Proof.
  apply (proj2 (getMatchedCommentAction_one_per_owner marker_range None
                  [sample_decoration "O" 1 1 1] (line_range 1 1))
           (sample_decoration "O" 2 1 1) (line_range 1 1)).
  - reflexivity.
  - reflexivity.
  - intros a Ha; vm_compute in Ha; injection Ha as <-; simpl; discriminate.
Defined.

(** C8: with no matching action, [addCommentAtLine] throws at once and
    has cleared [_addInProgress]; nothing is queued or retried. *)
Theorem addCommentAtLine_no_action env getActiveRange infos decorations st range hasEvent :
  getMatchedCommentAction getActiveRange infos decorations range = [] ->
  addCommentAtLine env getActiveRange infos decorations st range hasEvent
  = AddThrows "There are no commenting ranges at the current position." (set_addInProgress st false).
Proof. intros H; unfold addCommentAtLine; rewrite H; reflexivity. Qed.

Lemma addCommentAtLine_no_action_witness :
  addCommentAtLine sample_env marker_range (Some []) [] (sample_state [] []) (Some (line_range 1 1)) false
  = AddThrows "There are no commenting ranges at the current position."
      (set_addInProgress (sample_state [] []) false).
Proof. apply addCommentAtLine_no_action; reflexivity. Defined.

(* ------------------------------------------------------------------ *)
(** ** Claims on [getNearestCommentingRange] *)

(** C4 (amended): when no decoration's active range holds the line of
    [findPosition] and none lies after it (before it, when [reverse]), the
    search wraps: it returns the active range of the first decoration of
    the list it scanned, which is the first decoration of
    [this.commentingRangeDecorations] going forward and the last one in
    reverse. *)
Theorem getNearestCommentingRange_wraps
    (getActiveRange : CommentingRangeDecoration -> option Range)
    (findPosition : Position) (reverse : bool)
    (d0 : CommentingRangeDecoration) (rest : list CommentingRangeDecoration) :
  (forall d r, In d (d0 :: rest) -> getActiveRange d = Some r ->
     ~ line_in (lineNumber findPosition) r
     /\ (if reverse then ~ endLineNumber r < lineNumber findPosition
         else ~ lineNumber findPosition < startLineNumber r)) ->
  getNearestCommentingRange getActiveRange (d0 :: rest) findPosition reverse
  = NROk (getActiveRange (if reverse then List.last (d0 :: rest) d0 else d0)).
Proof.
  intros Hall; unfold getNearestCommentingRange.
  rewrite nearest_loop_skip.
  - destruct reverse; [|reflexivity].
    destruct (rev_head d0 rest) as [t ->]; reflexivity.
  - intros d r Hd; apply Hall.
    destruct reverse; [apply in_rev|]; exact Hd.
Qed.

Lemma getNearestCommentingRange_wraps_witness :
  getNearestCommentingRange marker_range
    [sample_decoration "o" 1 5 5; sample_decoration "o" 1 10 10] (mkPosition 3 1) true
  = NROk (Some (line_range 10 10)).
Proof.
  apply (getNearestCommentingRange_wraps marker_range (mkPosition 3 1) true
           (sample_decoration "o" 1 5 5) [sample_decoration "o" 1 10 10]).
  intros d r Hd Hr; simpl in Hd.
  destruct Hd as [<-|[<-|[]]]; inversion Hr; subst; unfold line_in; simpl; lia.
Defined.

(** The sentence of the spec read as stated: the wrap always returns the
    first decoration of the original list. Reverse from line 3 over lines
    5 and 10 it returns line 10, the last one. *)
Lemma getNearestCommentingRange_wraps_counterexample :
  getNearestCommentingRange marker_range
    [sample_decoration "o" 1 5 5; sample_decoration "o" 1 10 10] (mkPosition 3 1) true
  <> NROk (marker_range (sample_decoration "o" 1 5 5)).
Proof. vm_compute; discriminate. Qed.

(** The two wraps of the spec's example. *)
Example getNearestCommentingRange_example :
  getNearestCommentingRange marker_range
    [sample_decoration "o" 1 5 5; sample_decoration "o" 1 10 10] (mkPosition 12 1) false
  = NROk (Some (line_range 5 5))
  /\ getNearestCommentingRange marker_range
    [sample_decoration "o" 1 5 5; sample_decoration "o" 1 10 10] (mkPosition 3 1) true
  = NROk (Some (line_range 10 10)).
Proof. split; vm_compute; reflexivity. Qed.

(** C7: with at least one decoration the search always returns (a range
    or undefined); with none it reaches [decorations[0]] out of bounds. *)
Theorem getNearestCommentingRange_total
    (getActiveRange : CommentingRangeDecoration -> option Range)
    (decorations : list CommentingRangeDecoration) (findPosition : Position) (reverse : bool) :
  (decorations <> [] ->
   exists r, getNearestCommentingRange getActiveRange decorations findPosition reverse = NROk r)
  /\ getNearestCommentingRange getActiveRange [] findPosition reverse = NROutOfBounds.
Proof.
  split; [|destruct reverse; reflexivity].
  intros Hne; unfold getNearestCommentingRange.
  destruct (nearest_loop _ _ _ _ _) as [r|]; [eauto|].
  destruct reverse.
  - destruct (rev decorations) eqn:Hr; eauto.
    exfalso; apply Hne; rewrite <- (rev_involutive decorations), Hr; reflexivity.
  - destruct decorations; [congruence|eauto].
Qed.

Lemma getNearestCommentingRange_total_witness :
  exists r, getNearestCommentingRange marker_range [sample_decoration "o" 1 5 5] (mkPosition 3 1) false
            = NROk r.
Proof.
  apply (getNearestCommentingRange_total marker_range [sample_decoration "o" 1 5 5] (mkPosition 3 1) false).
  discriminate.
Defined.

(* ------------------------------------------------------------------ *)
(** ** The draft cache across [setComments] *)

Lemma cachedPendingComment_cache st st' o tid :
  _pendingNewCommentCache st = _pendingNewCommentCache st' ->
  cachedPendingComment st o tid = cachedPendingComment st' o tid.
Proof. unfold cachedPendingComment; intros ->; reflexivity. Qed.

Lemma cachedPendingEdits_cache st st' o tid :
  _pendingEditsCache st = _pendingEditsCache st' ->
  cachedPendingEdits st o tid = cachedPendingEdits st' o tid.
Proof. unfold cachedPendingEdits; intros ->; reflexivity. Qed.

Lemma storeCache_zone_other st z o tid :
  zone_owner z <> o \/ threadId (commentThread z) <> tid ->
  cachedPendingComment (storeCache_zone st z) o tid = cachedPendingComment st o tid.
Proof.
  intros Hk; unfold cachedPendingComment, storeCache_zone; simpl.
  destruct (decide (zone_owner z = o)) as [<-|Ho].
  - assert (Ht : threadId (commentThread z) <> tid) by (destruct Hk; congruence).
    destruct (_pendingNewCommentCache st !! zone_owner z) as [store|] eqn:Hs;
      destruct (pendingNewComment z) as [text|]; try destruct (storesDraft z);
      rewrite ?Hs; simpl; rewrite ?lookup_insert_eq; simpl;
      rewrite ?lookup_insert_ne, ?lookup_delete_ne, ?lookup_empty by auto; rewrite ?Hs; reflexivity.
  - destruct (pendingNewComment z) as [text|]; try destruct (storesDraft z);
      try destruct (_pendingNewCommentCache st !! zone_owner z);
      rewrite ?lookup_insert_ne by auto; reflexivity.
Qed.

Lemma storeCache_zone_self st z :
  cachedPendingComment (storeCache_zone st z) (zone_owner z) (threadId (commentThread z))
  = if storesDraft z then pendingNewComment z else None.
Proof.
  unfold cachedPendingComment, storeCache_zone; simpl.
  destruct (pendingNewComment z) as [text|] eqn:Hp.
  - destruct (storesDraft z) eqn:Hd.
    + rewrite lookup_insert_eq; simpl; rewrite lookup_insert_eq; reflexivity.
    + destruct (_pendingNewCommentCache st !! zone_owner z) eqn:Hs; rewrite ?Hs;
        [rewrite lookup_insert_eq, lookup_delete_eq|]; reflexivity.
  - assert (Hd : storesDraft z = false) by (unfold storesDraft; rewrite Hp; reflexivity).
    rewrite Hd.
    destruct (_pendingNewCommentCache st !! zone_owner z) eqn:Hs; rewrite ?Hs;
      [rewrite lookup_insert_eq, lookup_delete_eq|]; reflexivity.
Qed.

Lemma fold_storeCache_other ws st o tid :
  Forall (fun z => zone_owner z <> o \/ threadId (commentThread z) <> tid) ws ->
  cachedPendingComment (fold_left storeCache_zone ws st) o tid = cachedPendingComment st o tid.
Proof.
  revert st; induction ws as [|z ws IH]; simpl; intros st Hall; auto.
  inversion Hall; subst. rewrite IH by auto. apply storeCache_zone_other; auto.
Qed.

(** What the teardown leaves in the cache for the key of widget [w]: the
    widgets after [w] have other keys. *)
Lemma removeCommentWidgetsAndStoreCache_cache st ws1 w ws2 :
  _commentWidgets st = ws1 ++ w :: ws2 ->
  Forall (fun z => zone_owner z <> zone_owner w
                   \/ threadId (commentThread z) <> threadId (commentThread w)) ws2 ->
  cachedPendingComment (removeCommentWidgetsAndStoreCache st) (zone_owner w) (threadId (commentThread w))
  = if storesDraft w then pendingNewComment w else None.
Proof.
  intros Hw Hall; unfold removeCommentWidgetsAndStoreCache; rewrite Hw.
  rewrite (cachedPendingComment_cache _ (fold_left storeCache_zone (ws1 ++ w :: ws2) st)) by reflexivity.
  rewrite fold_left_app; simpl.
  rewrite fold_storeCache_other by auto.
  apply storeCache_zone_self.
Qed.

Section Redisplay.

Variable env : Env.
Hypothesis env_model : hasModel env = true.
Hypothesis env_not_inline : isEditorInlineOriginal env = false.


Lemma display_threads o threads st :
  let st' := fold_left (fun st thread =>
                displayCommentThread env st o thread
                  (cachedPendingComment st o (threadId thread))
                  (cachedPendingEdits st o (threadId thread))) threads st in
  _pendingNewCommentCache st' = _pendingNewCommentCache st
  /\ _pendingEditsCache st' = _pendingEditsCache st
  /\ _commentWidgets st' = _commentWidgets st ++ map (redisplayed st o) threads.
Proof.
  revert st; induction threads as [|t ts IH]; intros st; simpl.
  - rewrite app_nil_r; auto.
  - assert (Hd : forall st o t pc pe, displayCommentThread env st o t pc pe
                   = set_widgets st (_commentWidgets st ++ [createZone o t pc pe]))
      by (intros; unfold displayCommentThread; rewrite env_model, env_not_inline; reflexivity).
    rewrite Hd.
    destruct (IH (set_widgets st (_commentWidgets st
                   ++ [createZone o t (cachedPendingComment st o (threadId t))
                         (cachedPendingEdits st o (threadId t))]))) as (H1 & H2 & H3).
    simpl in H1, H2, H3; rewrite H1, H2, H3, <- app_assoc; repeat split.
Qed.

Lemma display_infos infos st :
  let st' := fold_left (fun st info =>
      fold_left (fun st thread =>
          displayCommentThread env st (owner info) thread
            (cachedPendingComment st (owner info) (threadId thread))
            (cachedPendingEdits st (owner info) (threadId thread)))
        (List.filter (fun thread => negb (isDisposed thread)) (threads info)) st)
    infos st in
  _pendingNewCommentCache st' = _pendingNewCommentCache st
  /\ _pendingEditsCache st' = _pendingEditsCache st
  /\ _commentWidgets st' = _commentWidgets st
       ++ flat_map (fun info => map (redisplayed st (owner info))
                                  (List.filter (fun thread => negb (isDisposed thread)) (threads info)))
            infos.
Proof.
  revert st; induction infos as [|i is IH]; intros st; simpl.
  - rewrite app_nil_r; auto.
  - destruct (display_threads (owner i) (List.filter (fun thread => negb (isDisposed thread)) (threads i)) st)
      as (H1 & H2 & H3).
    destruct (IH (fold_left (fun st thread =>
          displayCommentThread env st (owner i) thread
            (cachedPendingComment st (owner i) (threadId thread))
            (cachedPendingEdits st (owner i) (threadId thread)))
        (List.filter (fun thread => negb (isDisposed thread)) (threads i)) st)) as (H4 & H5 & H6).
    rewrite H4, H5, H6, H1, H2, H3, <- app_assoc; repeat split.
    f_equal; f_equal; apply flat_map_ext; intros x; apply map_ext; intros y; unfold redisplayed.
    rewrite (cachedPendingComment_cache _ st), (cachedPendingEdits_cache _ st) by auto.
    reflexivity.
Qed.

Lemma setComments_widgets st infos :
  isCommentingEnabled env = true ->
  let st0 := removeCommentWidgetsAndStoreCache
               (mkController infos (_commentWidgets st) (_pendingNewCommentCache st)
                  (_pendingEditsCache st) (_addInProgress st) (_emptyThreadsToAddQueue st)) in
  _pendingNewCommentCache (setComments env st infos) = _pendingNewCommentCache st0
  /\ _commentWidgets (setComments env st infos)
     = flat_map (fun info => map (redisplayed st0 (owner info))
                               (List.filter (fun thread => negb (isDisposed thread)) (threads info)))
         infos.
Proof.
  intros He st0; unfold setComments.
  assert (Hed : hasEditor env = true) by (unfold hasModel in env_model; apply andb_prop in env_model; tauto).
  rewrite Hed, He; simpl.
  destruct (display_infos infos st0) as (H1 & _ & H3).
  fold st0; rewrite H1, H3; split; reflexivity.
Qed.

End Redisplay.

(** C3: widget [w] is torn down by [setComments], no later widget has its
    owner and thread id. The cache then holds its typed text for that key
    iff [storesDraft w], that is, iff the text is defined, not empty and
    not the body of the thread's last comment (otherwise the key holds
    nothing); each widget of that owner and thread id that [setComments]
    displays again starts from exactly that draft, and every non-disposed
    thread of the owner with that id is displayed again. *)
Theorem setComments_draft_round_trip env st infos ws1 w ws2 :
  hasModel env = true -> isEditorInlineOriginal env = false -> isCommentingEnabled env = true ->
  _commentWidgets st = ws1 ++ w :: ws2 ->
  Forall (fun z => zone_owner z <> zone_owner w
                   \/ threadId (commentThread z) <> threadId (commentThread w)) ws2 ->
  let draft := if storesDraft w then pendingNewComment w else None in
  (storesDraft w = true <->
     exists text, pendingNewComment w = Some text /\ text <> EmptyString
                  /\ lastCommentBody (commentThread w) <> Some text)
  /\ cachedPendingComment (setComments env st infos) (zone_owner w) (threadId (commentThread w)) = draft
  /\ (forall z, In z (_commentWidgets (setComments env st infos)) ->
        zone_owner z = zone_owner w -> threadId (commentThread z) = threadId (commentThread w) ->
        initialPendingComment z = draft)
  /\ (forall info thread, In info infos -> In thread (threads info) -> isDisposed thread = false ->
        owner info = zone_owner w -> threadId thread = threadId (commentThread w) ->
        exists z, In z (_commentWidgets (setComments env st infos))
                  /\ zone_owner z = zone_owner w /\ commentThread z = thread).
Proof.
  intros Hm Hi He Hw Hall draft.
  set (st0 := removeCommentWidgetsAndStoreCache
               (mkController infos (_commentWidgets st) (_pendingNewCommentCache st)
                  (_pendingEditsCache st) (_addInProgress st) (_emptyThreadsToAddQueue st))).
  assert (Hc : cachedPendingComment st0 (zone_owner w) (threadId (commentThread w)) = draft).
  { apply (removeCommentWidgetsAndStoreCache_cache _ ws1 w ws2); auto. }
  destruct (setComments_widgets env Hm Hi st infos He) as [H1 H2]; fold st0 in H1, H2.
  split; [|split; [|split]].
  - unfold storesDraft, truthy, option_string_eqb.
    destruct (pendingNewComment w) as [text|]; simpl; [|split; [discriminate|intros (t & Ht & _); discriminate]].
    split.
    + intros H; apply andb_prop in H as [Ha Hb]; apply negb_true_iff in Ha, Hb.
      exists text; repeat split; auto.
      * intros ->; discriminate.
      * intros Hl; rewrite Hl, String.eqb_refl in Hb; discriminate.
    + intros (t & Ht & Hne & Hl); injection Ht as <-.
      apply andb_true_intro; split; apply negb_true_iff.
      * apply String.eqb_neq; auto.
      * destruct (lastCommentBody (commentThread w)) as [b|]; auto.
        apply String.eqb_neq; congruence.
  - rewrite (cachedPendingComment_cache _ st0) by auto; auto.
  - intros z Hz Ho Ht; rewrite H2 in Hz.
    apply in_flat_map in Hz as (info & _ & Hz); apply in_map_iff in Hz as (thread & <- & _).
    simpl in Ho, Ht |- *; rewrite Ho, Ht; auto.
  - intros info thread Hinfo Hth Hd Ho Ht.
    exists (redisplayed st0 (owner info) thread); rewrite H2; repeat split; auto.
    apply in_flat_map; exists info; split; auto.
    apply in_map, filter_In; split; auto; rewrite Hd; reflexivity.
Qed.


Lemma setComments_draft_round_trip_witness :
  cachedPendingComment (setComments sample_env (sample_state [] [draft_widget "ab"])
                          [sample_info "o" 1 [] [sample_thread "t" 1 ["a"]]]) "o" "t"
  = (if storesDraft (draft_widget "ab") then pendingNewComment (draft_widget "ab") else None).
Proof.
  destruct (setComments_draft_round_trip sample_env (sample_state [] [draft_widget "ab"])
              [sample_info "o" 1 [] [sample_thread "t" 1 ["a"]]] [] (draft_widget "ab") []
              eq_refl eq_refl eq_refl eq_refl (List.Forall_nil _)) as (_ & H & _).
  exact H.
Defined.

Example setComments_draft_example :
  map initialPendingComment
    (_commentWidgets (setComments sample_env (sample_state [] [draft_widget "ab"])
                        [sample_info "o" 1 [] [sample_thread "t" 1 ["a"]]]))
  = [Some "ab"]
  /\ map initialPendingComment
    (_commentWidgets (setComments sample_env (sample_state [] [draft_widget "a"])
                        [sample_info "o" 1 [] [sample_thread "t" 1 ["a"]]]))
  = [None].
Proof. split; vm_compute; reflexivity. Qed.

(* ------------------------------------------------------------------ *)
(** ** The thread-update handler *)

Lemma filter_remove_first (q : ReviewZoneWidget -> bool) ws :
  List.filter q (remove_first q ws) = tl (List.filter q ws).
Proof.
  induction ws as [|z ws IH]; simpl; auto.
  destruct (q z) eqn:Hq; simpl; auto; rewrite Hq; auto.
Qed.

Lemma filter_nil_existsb (q : ReviewZoneWidget -> bool) ws :
  List.filter q ws = [] -> existsb q ws = false.
Proof.
  induction ws as [|z ws IH]; simpl; auto.
  destruct (q z); simpl; [discriminate|auto].
Qed.

Lemma existsb_filter_nil (q : ReviewZoneWidget -> bool) ws :
  existsb q ws = false -> List.filter q ws = [].
Proof.
  induction ws as [|z ws IH]; simpl; auto.
  destruct (q z); simpl; [discriminate|auto].
Qed.

Lemma existsb_pointwise {A} (p q : A -> bool) l :
  (forall x, p x = q x) -> existsb p l = existsb q l.
Proof. intros H; induction l as [|x l IH]; simpl; auto; rewrite H, IH; auto. Qed.

Lemma remove_first_pointwise {A} (p q : A -> bool) l :
  (forall x, p x = q x) -> remove_first p l = remove_first q l.
Proof. intros H; induction l as [|x l IH]; simpl; auto; rewrite H, IH; auto. Qed.

(** The removal of the one widget of a key leaves none. *)
Lemma removed_step_clears O T st :
  threadId T <> EmptyString ->
  (length (List.filter (sameThread O T) (_commentWidgets st)) <= 1)%nat ->
  List.filter (sameThread O T) (_commentWidgets (removed_step O st T)) = [].
Proof.
  intros Hne Hle; unfold removed_step; cbv zeta.
  assert (Hp : forall z, sameThread O T z && negb (String.eqb (threadId (commentThread z)) EmptyString)
                         = sameThread O T z).
  { intros z; unfold sameThread.
    destruct (String.eqb_spec (threadId (commentThread z)) (threadId T)) as [->|];
      [|rewrite !andb_false_r; reflexivity].
    apply String.eqb_neq in Hne; rewrite Hne, !andb_true_r; reflexivity. }
  rewrite (existsb_pointwise _ (sameThread O T) _ Hp).
  destruct (existsb (sameThread O T) (_commentWidgets st)) eqn:He.
  - simpl. rewrite (remove_first_pointwise _ (sameThread O T) _ Hp).
    rewrite filter_remove_first.
    destruct (List.filter (sameThread O T) (_commentWidgets st)) as [|z [|z' t]]; simpl in *; auto; lia.
  - apply existsb_filter_nil; auto.
Qed.

Lemma sameThread_self O T z :
  zone_owner z = O -> commentThread z = T -> sameThread O T z = true.
Proof. intros <- <-; unfold sameThread; rewrite !String.eqb_refl; reflexivity. Qed.

Lemma update_first_one (pNew : ReviewZoneWidget -> bool) O T' ws :
  (forall z, pNew z = true -> zone_owner z = O) ->
  List.filter (sameThread O T') ws = [] -> existsb pNew ws = true ->
  exists z, List.filter (sameThread O T') (update_first pNew T' ws) = [z] /\ commentThread z = T'.
Proof.
  intros Ho; induction ws as [|z ws IH]; simpl; [discriminate|].
  intros Hf He; destruct (sameThread O T' z) eqn:Hs; [discriminate|].
  destruct (pNew z) eqn:Hp; simpl.
  - rewrite sameThread_self by (simpl; auto). exists (zone_update z T'); rewrite Hf; auto.
  - rewrite Hs; apply IH; auto.
Qed.

(** The added thread of a key no widget has ends up in exactly one
    widget: a new-thread widget it updates, or a new one. *)
Lemma added_step_one env uri O st T' :
  hasModel env = true -> isEditorInlineOriginal env = false ->
  List.filter (sameThread O T') (_commentWidgets st) = [] ->
  exists z, List.filter (sameThread O T') (_commentWidgets (added_step env uri O st T')) = [z]
            /\ commentThread z = T'.
Proof.
  intros Hm Hi Hf; unfold added_step; cbv zeta.
  rewrite (filter_nil_existsb _ _ Hf).
  match goal with |- context [if existsb ?p _ then _ else _] =>
    destruct (existsb p (_commentWidgets st)) eqn:Hn end.
  - simpl; apply update_first_one; auto.
    intros z Hz; apply andb_prop in Hz as [Hz _]; apply andb_prop in Hz as [Hz _].
    apply String.eqb_eq; auto.
  - unfold displayCommentThread; rewrite Hm, Hi; simpl.
    rewrite List.filter_app, Hf; simpl; rewrite sameThread_self by reflexivity.
    eexists; split; reflexivity.
Qed.

(** C6 (amended): in one batch the handler removes, then changes, then
    adds (then requests the pending templates). When the editor shows
    [uri] and the owner [O] has comment infos, a batch removing [T] and
    adding [T'], both of [uri], with the same non-empty thread id, where
    at most one widget had [O] and that id, leaves exactly one widget of
    [O] with that id, showing [T']. *)
Theorem onDidUpdateCommentThreads_removed_then_added env st O T T' pendingThreads uri :
  hasModel env = true -> editorURI env = Some uri -> isCommentingEnabled env = true ->
  isEditorInlineOriginal env = false ->
  existsb (fun info => String.eqb (owner info) O) (_commentInfos st) = true ->
  onEditorResource uri T = true -> onEditorResource uri T' = true ->
  threadId T = threadId T' -> threadId T <> EmptyString ->
  (length (List.filter (sameThread O T) (_commentWidgets st)) <= 1)%nat ->
  exists z,
    List.filter (sameThread O T')
      (_commentWidgets (fst (onDidUpdateCommentThreads env st (mkThreadEvent O [T'] [T] [] pendingThreads))))
    = [z]
    /\ commentThread z = T'.
Proof.
  intros Hm Hu He Hi Hinfo HT HT' Htid Hne Hle.
  unfold onDidUpdateCommentThreads; rewrite Hm, Hu, He; simpl.
  destruct (List.filter (fun info => String.eqb (owner info) O) (_commentInfos st)) eqn:Hf.
  { exfalso; apply existsb_exists in Hinfo as (info & Hin & Ho).
    assert (Hin' : In info (List.filter (fun info => String.eqb (owner info) O) (_commentInfos st)))
      by (apply filter_In; auto).
    rewrite Hf in Hin'; destruct Hin'. }
  rewrite HT, HT'; simpl.
  apply added_step_one; auto.
  assert (Hs : sameThread O T' = sameThread O T) by (unfold sameThread; rewrite Htid; reflexivity).
  rewrite Hs; apply removed_step_clears; auto.
Qed.


Lemma onDidUpdateCommentThreads_removed_then_added_witness :
  exists z,
    List.filter (sameThread "o" (sample_thread "t" 1 ["b"]))
      (_commentWidgets (fst (onDidUpdateCommentThreads sample_env
         (sample_state [sample_info "o" 1 [] []] [batch_widget "t" 1 ["a"]])
         (mkThreadEvent "o" [sample_thread "t" 1 ["b"]] [sample_thread "t" 1 ["a"]] [] []))))
    = [z]
    /\ commentThread z = sample_thread "t" 1 ["b"].
Proof.
  apply (onDidUpdateCommentThreads_removed_then_added sample_env
           (sample_state [sample_info "o" 1 [] []] [batch_widget "t" 1 ["a"]]) "o"
           (sample_thread "t" 1 ["a"]) (sample_thread "t" 1 ["b"]) [] sample_uri);
    try reflexivity; discriminate.
Defined.

(** The sentence of the spec read for every thread id: with the empty id
    the removal matches no widget and the added thread finds the old
    widget, which keeps showing the removed thread. *)
Lemma onDidUpdateCommentThreads_removed_then_added_counterexample :
  map commentThread
    (List.filter (sameThread "o" (sample_thread EmptyString 1 ["b"]))
      (_commentWidgets (fst (onDidUpdateCommentThreads sample_env
         (sample_state [sample_info "o" 1 [] []] [batch_widget EmptyString 1 ["a"]])
         (mkThreadEvent "o" [sample_thread EmptyString 1 ["b"]] [sample_thread EmptyString 1 ["a"]] [] [])))))
  = [sample_thread EmptyString 1 ["a"]].
Proof. vm_compute; reflexivity. Qed.

(** Two widgets of the same key: the removal takes the first one only and
    the added thread finds the second, which keeps the removed thread. *)
Example onDidUpdateCommentThreads_two_widgets :
  map commentThread
    (List.filter (sameThread "o" (sample_thread "t" 1 ["b"]))
      (_commentWidgets (fst (onDidUpdateCommentThreads sample_env
         (sample_state [sample_info "o" 1 [] []] [batch_widget "t" 1 ["a"]; batch_widget "t" 1 ["a"]])
         (mkThreadEvent "o" [sample_thread "t" 1 ["b"]] [sample_thread "t" 1 ["a"]] [] [])))))
  = [sample_thread "t" 1 ["a"]].
Proof. vm_compute; reflexivity. Qed.

(** ** The continue-on provider *)

(** The entry [provideContinueOnComments] makes of one widget, if any. *)
Lemma provideContinueOnComments_gen (uri : string) (ws : list ReviewZoneWidget) acc :
  fold_left (fun pendingComments zone =>
      match pendingNewComment zone, threadRange (commentThread zone) with
      | Some pendingNewComment, Some range =>
          if String.eqb pendingNewComment EmptyString then pendingComments
          else if option_string_eqb (Some pendingNewComment) (lastCommentBody (commentThread zone))
          then pendingComments
          else pendingComments ++ [mkPendingContinue (zone_owner zone) uri range pendingNewComment]
      | _, _ => pendingComments
      end) ws acc
  = acc ++ flat_map (fun zone =>
      match pendingNewComment zone, threadRange (commentThread zone) with
      | Some text, Some range =>
          if storesDraft zone then [mkPendingContinue (zone_owner zone) uri range text] else []
      | _, _ => []
      end) ws.
Proof.
  revert acc; induction ws as [|z ws IH]; intros acc; cbn [fold_left flat_map].
  - now rewrite app_nil_r.
  - rewrite IH. destruct (pendingNewComment z) as [t|] eqn:Ht, (threadRange (commentThread z)) as [r|];
      cbn [app]; try reflexivity.
    assert (Hs : storesDraft z
                 = negb (String.eqb t EmptyString)
                   && negb (option_string_eqb (Some t) (lastCommentBody (commentThread z))))
      by (unfold storesDraft; now rewrite Ht).
    rewrite Hs. destruct (String.eqb t EmptyString); cbn [negb andb app]; [reflexivity|].
    destruct (option_string_eqb (Some t) (lastCommentBody (commentThread z))); cbn [negb app];
      now rewrite ?app_nil_r, <- ?app_assoc.
Qed.

(** X1. The continue-on provider offers, in widget order, exactly the
    drafts that teardown would store ([storesDraft]: typed text that is
    not empty and differs from the thread's last comment), for widgets
    whose thread has a range. *)
Theorem provideContinueOnComments_storesDraft (uri : string) (ws : list ReviewZoneWidget) :
  provideContinueOnComments uri ws
  = flat_map (fun zone =>
      match pendingNewComment zone, threadRange (commentThread zone) with
      | Some text, Some range =>
          if storesDraft zone then [mkPendingContinue (zone_owner zone) uri range text] else []
      | _, _ => []
      end) ws.
Proof.
  unfold provideContinueOnComments. now rewrite provideContinueOnComments_gen.
Qed.

(** ** [onDidDeleteDataProvider] *)

(** X2. When a provider [o] is unregistered, its cached drafts and edits
    are gone and those of every other owner are kept; an event without an
    owner (or with an empty one) drops every cached draft and edit. *)
Theorem onDidDeleteDataProvider_caches (st : CommentControllerState) (ownerId : option string)
    (o tid : string) :
  let st' := onDidDeleteDataProvider st ownerId in
  (cachedPendingComment st' o tid
   = if truthy ownerId && negb (option_string_eqb ownerId (Some o))
     then cachedPendingComment st o tid else None)
  /\ (cachedPendingEdits st' o tid
   = if truthy ownerId && negb (option_string_eqb ownerId (Some o))
     then cachedPendingEdits st o tid else None).
Proof.
  unfold onDidDeleteDataProvider, cachedPendingComment, cachedPendingEdits, truthy.
  destruct ownerId as [o'|]; simpl; [|now rewrite !lookup_empty].
  destruct (String.eqb_spec o' EmptyString); simpl; [now rewrite !lookup_empty|].
  destruct (String.eqb_spec o' o) as [<-|Hne]; simpl.
  - now rewrite !lookup_delete_eq.
  - now rewrite !lookup_delete_ne by congruence.
Qed.

(** ** The [activeCursorHasCommentingRange] context key *)

Lemma cursor_decorations_loop_spec (ds : list DecorationDescription) (acc : bool) :
  cursor_decorations_loop ds acc
  = negb (existsb (fun d => match d with CommentGlyphDescription => true | _ => false end) ds)
    && (acc || existsb (fun d => match d with CommentingRangeDescription => true | _ => false end) ds).
Proof.
  revert acc; induction ds as [|d ds IH]; intros acc; simpl.
  - now rewrite orb_false_r.
  - destruct d; simpl; rewrite ?IH; [easy| |].
    + now rewrite orb_true_r.
    + easy.
Qed.

(** X9. The cursor counts as being on a commenting range exactly when
    the cursor line has a commenting-range decoration and no comment-thread
    glyph: a glyph anywhere in the line's decorations wins, whatever its
    position among them. *)
Theorem onEditorChangeCursorPosition_spec (ds : list DecorationDescription) :
  onEditorChangeCursorPosition (Some ds)
  = negb (existsb (fun d => match d with CommentGlyphDescription => true | _ => false end) ds)
    && existsb (fun d => match d with CommentingRangeDescription => true | _ => false end) ds.
Proof.
  unfold onEditorChangeCursorPosition. now rewrite cursor_decorations_loop_spec.
Qed.

(** ** Mouse up *)

Lemma new_Range_min_max sl sc el ec :
  startLineNumber (new_Range sl sc el ec) = Z.min sl el
  /\ endLineNumber (new_Range sl sc el ec) = Z.max sl el.
Proof. unfold new_Range; z_cases; lia. Qed.

(** X10. A range handed on by a mouse-up always covers the mouse-up line;
    after a drag along the gutter from another line, it is the range from
    the mouse-down line to the mouse-up line (whichever comes first),
    whole lines, and the editor's selection is collapsed to its last
    line. *)
Theorem onEditorMouseUp_range (matched : Z) (hasElement onDecorator : bool) (lineNumber : Z)
    (getLineLength : Z -> Z) (sel : option Range) (r : Range) (newSel : option Range) :
  onEditorMouseUp true (Some matched) hasElement onDecorator lineNumber getLineLength sel
    = (newSel, Some r) ->
  line_in lineNumber r
  /\ (matched <> lineNumber ->
      startLineNumber r = Z.min matched lineNumber /\ endLineNumber r = Z.max matched lineNumber
      /\ newSel = Some (new_Range (Z.max matched lineNumber) 1 (Z.max matched lineNumber) 1)).
Proof.
  unfold onEditorMouseUp, line_in. destruct hasElement; simpl; [|discriminate].
  destruct (Z.eqb_spec matched lineNumber) as [<-|Hne]; simpl.
  - destruct onDecorator; [|discriminate]. destruct sel as [s|].
    + destruct ((startLineNumber s <=? matched) && (matched <=? endLineNumber s)) eqn:E.
      * intros Heq; injection Heq as <- <-. apply andb_true_iff in E as [E1 E2].
        apply Z.leb_le in E1; apply Z.leb_le in E2. split; [lia|]. now intros.
      * intros Heq; injection Heq as <- <-. unfold new_Range; z_cases; split; lia.
    + intros Heq; injection Heq as <- <-. unfold new_Range; z_cases; split; lia.
  - destruct (lineNumber <? matched);
      [destruct (new_Range_min_max matched (getLineLength matched + 1) lineNumber 1) as [E1 E2]
      |destruct (new_Range_min_max matched 1 lineNumber (getLineLength lineNumber + 1)) as [E1 E2]];
      rewrite E1, E2;
      (replace ((Z.min matched lineNumber <=? lineNumber) && (lineNumber <=? Z.max matched lineNumber))
         with true by (symmetry; apply andb_true_iff; split; apply Z.leb_le; lia));
      intros Heq; injection Heq as <- <-; rewrite E1, E2; (split; [lia|]); auto.
Qed.

(** ** Ordering comment threads *)

(** X17. The search for the next (or previous) thread is monotone along
    the order of the comparator: once a thread is past the cursor, every
    thread the comparator puts after it is too, whether or not the threads
    have a range. This is what [findFirstIdxMonotonousOrArrLen] needs on
    the sorted widgets. *)
Theorem threadIsPastCursor_monotone (reverse : bool) (after : Position) (a b : ReviewZoneWidget) :
  1 <= lineNumber after ->
  compareThreadWidgets reverse a b <= 0 ->
  threadIsPastCursor reverse after a = true ->
  threadIsPastCursor reverse after b = true.
Proof.
  intros Hl. unfold compareThreadWidgets, threadIsPastCursor.
  destruct reverse;
    destruct (threadRange (commentThread a)) as [ra|], (threadRange (commentThread b)) as [rb|];
    simpl; z_cases; lia.
Qed.

(** ** Matching and navigation *)

Section FoundFrom.

Variable getActiveRange : CommentingRangeDecoration -> option Range.
Variable commentRange : Range.
Variable ds0 : list CommentingRangeDecoration.

(** Every entry of the map was set from a decoration of [ds0] whose active
    range touches [commentRange]. *)
Definition found_from (m : list (string * FoundAction)) : Prop :=
  forall k v, In (k, v) m ->
    exists d r, In d ds0 /\ getCommentAction d = fa_action v /\ getActiveRange d = Some r
                /\ areRangesIntersectingOrTouchingByLine r commentRange = true.

Lemma step_found_from m d :
  In d ds0 -> found_from m -> found_from (foundHoverActions_step getActiveRange commentRange m d).
Proof.
  intros Hd Hm; unfold foundHoverActions_step.
  destruct (getActiveRange d) as [range|] eqn:Ha; [|exact Hm].
  destruct (areRangesIntersectingOrTouchingByLine range commentRange) eqn:Ht; [|exact Hm].
  assert (Hs : forall v0, fa_action v0 = getCommentAction d ->
                 found_from (map_set (ownerId (getCommentAction d)) v0 m)).
  { intros v0 Hv0 k v Hin. apply map_set_in in Hin as [Hin|[_ ->]]; [exact (Hm k v Hin)|].
    exists d, range; auto. }
  cbv zeta. destruct (map_get (ownerId (getCommentAction d)) m) as [a|];
    [destruct (Nat.eqb _ _)|]; now apply Hs.
Qed.

Lemma fold_found_from ds m :
  incl ds ds0 -> found_from m -> found_from (fold_left (foundHoverActions_step getActiveRange commentRange) ds m).
Proof.
  revert m; induction ds as [|d ds IH]; intros m Hi Hm; simpl; auto.
  apply IH; [intros x Hx; apply Hi; simpl; auto|].
  apply step_found_from; auto. apply Hi; simpl; auto.
Qed.

End FoundFrom.

(** X12. Every action offered for a range [H] is the action of a decoration
    whose current (marker) range touches or intersects [H] by line. *)
Theorem getMatchedCommentAction_from_touching getActiveRange infos ds H a :
  In a (getMatchedCommentAction getActiveRange infos ds (Some H)) ->
  exists d r, In d ds /\ getCommentAction d = a /\ getActiveRange d = Some r
              /\ areRangesIntersectingOrTouchingByLine r H = true.
Proof.
  unfold getMatchedCommentAction; intros Hin.
  apply in_map_iff in Hin as ([k v] & <- & Hin). apply filter_In in Hin as [Hin _].
  assert (Hf : found_from getActiveRange H ds (foundHoverActions getActiveRange H ds)).
  { apply fold_found_from; [apply incl_refl|intros k' v' []]. }
  exact (Hf k v Hin).
Qed.

(** X11. When the scan of [getNearestCommentingRange] stops at a range,
    that range is the current range of one of the decorations and lies
    wholly after the position's line (before it when searching
    backwards), whatever range the scan had merged so far. *)
Theorem nearest_loop_moves getActiveRange pos reverse within ds r :
  nearest_loop getActiveRange pos reverse within ds = Some r ->
  (exists d, In d ds /\ getActiveRange d = Some r)
  /\ (if reverse then endLineNumber r < lineNumber pos else lineNumber pos < startLineNumber r).
Proof.
  revert within; induction ds as [|d ds IH]; intros within Hr; simpl in Hr; [discriminate|].
  assert (Hrec : forall w, nearest_loop getActiveRange pos reverse w ds = Some r ->
            (exists d', In d' (d :: ds) /\ getActiveRange d' = Some r)
            /\ (if reverse then endLineNumber r < lineNumber pos else lineNumber pos < startLineNumber r)).
  { intros w Hw; destruct (IH w Hw) as [(d' & Hd' & Ha) Hp]; split; [exists d'; simpl|]; auto. }
  destruct (getActiveRange d) as [range|] eqn:Ha; [|now apply (Hrec within)].
  destruct within as [w|]; [destruct (areRangesIntersectingOrTouchingByLine range w);
                            [now apply (Hrec _ Hr)|]|];
    revert Hr; cbv zeta; destruct reverse; z_cases; intros Hr;
    first [now apply (Hrec _ Hr)
          |injection Hr as <-; split; [exists d; simpl; auto|lia]].
Qed.

(** ** Adding a comment *)

(** X7. When exactly one provider can comment at the range, adding a
    comment asks that provider for a thread template at the range,
    clears the add-in-progress flag and takes the next queued request,
    without touching the widgets. *)
Theorem addCommentAtLine_single env getActiveRange infos ds st range hasEvent a :
  getMatchedCommentAction getActiveRange infos ds range = [a] -> hasModel env = true ->
  exists st',
    addCommentAtLine env getActiveRange infos ds st range hasEvent
      = AddReturns st' (CreateThreadTemplate (ownerId a) range
                        :: match _emptyThreadsToAddQueue st with
                           | (r, ev) :: _ => [AddOrToggleQueued r ev]
                           | [] => []
                           end)
    /\ _addInProgress st' = false /\ _commentWidgets st' = _commentWidgets st
    /\ _emptyThreadsToAddQueue st' = tl (_emptyThreadsToAddQueue st).
Proof.
  intros Hm Hmodel. unfold addCommentAtLine. rewrite Hm, Hmodel; simpl.
  unfold addCommentAtLine2.
  assert (He : hasEditor env = true) by (unfold hasModel in Hmodel; now apply andb_prop in Hmodel).
  rewrite He; simpl. unfold processNextThreadToAdd; simpl.
  destruct (_emptyThreadsToAddQueue st) as [|[r ev] rest] eqn:Hq; eexists; (split; [reflexivity|]);
    simpl; rewrite ?Hq; auto.
Qed.

(** X8. While an add is in progress, a new request only goes to the end
    of the queue; when the add finishes, [processNextThreadToAdd] clears
    the flag and hands back the request at the front, so queued requests
    are served first in, first out. *)
Theorem addOrToggleCommentAtLine_fifo env getActiveRange infos ds getGlyphPosition expanded
    st range hasEvent :
  _addInProgress st = true ->
  exists st',
    addOrToggleCommentAtLine env getActiveRange infos ds getGlyphPosition expanded st range hasEvent
      = Queued st'
    /\ _emptyThreadsToAddQueue st' = _emptyThreadsToAddQueue st ++ [(range, hasEvent)]
    /\ _commentWidgets st' = _commentWidgets st /\ _addInProgress st' = true
    /\ snd (processNextThreadToAdd st')
       = [let '(r, ev) := hd (range, hasEvent) (_emptyThreadsToAddQueue st) in AddOrToggleQueued r ev]
    /\ _addInProgress (fst (processNextThreadToAdd st')) = false
    /\ _emptyThreadsToAddQueue (fst (processNextThreadToAdd st'))
       = tl (_emptyThreadsToAddQueue st ++ [(range, hasEvent)]).
Proof.
  intros Hp. unfold addOrToggleCommentAtLine. rewrite Hp; simpl.
  eexists; repeat split; auto.
  - unfold processNextThreadToAdd; simpl.
    destruct (_emptyThreadsToAddQueue st) as [|[r ev] rest]; reflexivity.
  - unfold processNextThreadToAdd; simpl.
    destruct (_emptyThreadsToAddQueue st) as [|[r ev] rest]; reflexivity.
  - unfold processNextThreadToAdd; simpl.
    destruct (_emptyThreadsToAddQueue st) as [|[r ev] rest]; reflexivity.
Qed.

(** ** Widgets and caches *)

Lemma displayCommentThread_noop env st o t pc pe :
  hasModel env = false \/ isEditorInlineOriginal env = true ->
  displayCommentThread env st o t pc pe = st.
Proof.
  unfold displayCommentThread; intros [-> | ->]; simpl; auto.
  destruct (negb (hasModel env)); auto.
Qed.

Lemma display_infos_noop env infos st :
  hasModel env = false \/ isEditorInlineOriginal env = true ->
  fold_left (fun st info =>
      fold_left (fun st thread =>
          displayCommentThread env st (owner info) thread
            (cachedPendingComment st (owner info) (threadId thread))
            (cachedPendingEdits st (owner info) (threadId thread)))
        (List.filter (fun thread => negb (isDisposed thread)) (threads info)) st)
    infos st = st.
Proof.
  intros Hn; revert st; induction infos as [|i is IH]; intros st; simpl; auto.
  rewrite IH. generalize (List.filter (fun thread => negb (isDisposed thread)) (threads i)).
  intros ts; revert st; induction ts as [|t ts IHt]; intros st; simpl; auto.
  rewrite displayCommentThread_noop by auto. apply IHt.
Qed.

(** X4. [setComments] replaces all widgets: afterwards there is one widget
    per non-disposed thread of the new infos, in info and thread order,
    owned by the thread's provider; on an editor without a model, or on
    the original side of an inline diff, no widget is left. *)
Theorem setComments_widgets_threads env st infos :
  hasEditor env = true -> isCommentingEnabled env = true ->
  map (fun z => (zone_owner z, commentThread z)) (_commentWidgets (setComments env st infos))
  = if hasModel env && negb (isEditorInlineOriginal env)
    then flat_map (fun info => map (fun thread => (owner info, thread))
                                 (List.filter (fun thread => negb (isDisposed thread)) (threads info)))
           infos
    else [].
Proof.
  intros Hed He.
  destruct (hasModel env) eqn:Hm, (isEditorInlineOriginal env) eqn:Hi; simpl.
  2: { destruct (setComments_widgets env Hm Hi st infos He) as [_ H2]. rewrite H2.
       rewrite flat_map_concat_map, concat_map, map_map, flat_map_concat_map.
       f_equal; apply map_ext; intros info. rewrite map_map. reflexivity. }
  all: unfold setComments; rewrite Hed, He; simpl; rewrite display_infos_noop by auto; reflexivity.
Qed.

Lemma storeCache_zone_edits_other st z o tid :
  zone_owner z <> o \/ threadId (commentThread z) <> tid ->
  cachedPendingEdits (storeCache_zone st z) o tid = cachedPendingEdits st o tid.
Proof.
  intros Hk; unfold cachedPendingEdits, storeCache_zone; simpl.
  destruct (decide (zone_owner z = o)) as [<-|Ho].
  - assert (Ht : threadId (commentThread z) <> tid) by (destruct Hk; congruence).
    destruct (bool_decide (pendingEdits z = ∅)); simpl.
    + destruct (_pendingEditsCache st !! zone_owner z) as [store|] eqn:Hs; rewrite ?Hs; [|reflexivity].
      rewrite lookup_insert_eq; simpl; rewrite lookup_delete_ne by auto; reflexivity.
    + rewrite lookup_insert_eq; simpl; rewrite lookup_insert_ne by auto.
      destruct (_pendingEditsCache st !! zone_owner z); simpl; rewrite ?lookup_empty; reflexivity.
  - destruct (bool_decide (pendingEdits z = ∅)); simpl;
      try destruct (_pendingEditsCache st !! zone_owner z);
      rewrite ?lookup_insert_ne by auto; reflexivity.
Qed.

Lemma storeCache_zone_edits_self st z :
  cachedPendingEdits (storeCache_zone st z) (zone_owner z) (threadId (commentThread z))
  = if bool_decide (pendingEdits z = ∅) then None else Some (pendingEdits z).
Proof.
  unfold cachedPendingEdits, storeCache_zone; simpl.
  destruct (bool_decide (pendingEdits z = ∅)); simpl.
  - destruct (_pendingEditsCache st !! zone_owner z) eqn:Hs; rewrite ?Hs;
      [rewrite lookup_insert_eq, lookup_delete_eq|]; reflexivity.
  - rewrite lookup_insert_eq; simpl; rewrite lookup_insert_eq; reflexivity.
Qed.

Lemma removeCommentWidgetsAndStoreCache_edits st ws1 w ws2 :
  _commentWidgets st = ws1 ++ w :: ws2 ->
  Forall (fun z => zone_owner z <> zone_owner w
                   \/ threadId (commentThread z) <> threadId (commentThread w)) ws2 ->
  cachedPendingEdits (removeCommentWidgetsAndStoreCache st) (zone_owner w) (threadId (commentThread w))
  = if bool_decide (pendingEdits w = ∅) then None else Some (pendingEdits w).
Proof.
  intros Hw Hall; unfold removeCommentWidgetsAndStoreCache; rewrite Hw.
  rewrite (cachedPendingEdits_cache _ (fold_left storeCache_zone (ws1 ++ w :: ws2) st)) by reflexivity.
  rewrite fold_left_app; simpl.
  assert (Hf : forall ws st', Forall (fun z => zone_owner z <> zone_owner w
                   \/ threadId (commentThread z) <> threadId (commentThread w)) ws ->
            cachedPendingEdits (fold_left storeCache_zone ws st') (zone_owner w) (threadId (commentThread w))
            = cachedPendingEdits st' (zone_owner w) (threadId (commentThread w))).
  { induction ws as [|z ws IH]; simpl; intros st' Ha; auto.
    inversion Ha; subst. rewrite IH by auto. apply storeCache_zone_edits_other; auto. }
  rewrite Hf by auto. apply storeCache_zone_edits_self.
Qed.

(** X3. The pending edits of existing comments survive [setComments] the
    way new-comment drafts do: for a torn-down widget [w] (no later widget
    with its owner and thread id), the edits cache holds [w]'s pending
    edits iff there are any, and each redisplayed widget of that owner and
    thread id starts from exactly those edits. *)
Theorem setComments_edits_round_trip env st infos ws1 w ws2 :
  hasModel env = true -> isEditorInlineOriginal env = false -> isCommentingEnabled env = true ->
  _commentWidgets st = ws1 ++ w :: ws2 ->
  Forall (fun z => zone_owner z <> zone_owner w
                   \/ threadId (commentThread z) <> threadId (commentThread w)) ws2 ->
  let edits := if bool_decide (pendingEdits w = ∅) then None else Some (pendingEdits w) in
  cachedPendingEdits (setComments env st infos) (zone_owner w) (threadId (commentThread w)) = edits
  /\ (forall z, In z (_commentWidgets (setComments env st infos)) ->
        zone_owner z = zone_owner w -> threadId (commentThread z) = threadId (commentThread w) ->
        initialPendingEdits z = edits /\ pendingEdits z = pendingEdits w).
Proof.
  intros Hm Hi He Hw Hall edits.
  set (st0 := removeCommentWidgetsAndStoreCache
               (mkController infos (_commentWidgets st) (_pendingNewCommentCache st)
                  (_pendingEditsCache st) (_addInProgress st) (_emptyThreadsToAddQueue st))).
  assert (Hc : cachedPendingEdits st0 (zone_owner w) (threadId (commentThread w)) = edits).
  { apply (removeCommentWidgetsAndStoreCache_edits _ ws1 w ws2); auto. }
  assert (Hed : hasEditor env = true) by (unfold hasModel in Hm; now apply andb_prop in Hm).
  destruct (setComments_widgets env Hm Hi st infos He) as [_ H2]; fold st0 in H2.
  destruct (display_infos env Hm Hi infos st0) as (_ & H4 & _).
  split.
  - unfold setComments in *; rewrite Hed, He in *; simpl in *.
    rewrite (cachedPendingEdits_cache _ st0) by exact H4. exact Hc.
  - intros z Hz Ho Ht; rewrite H2 in Hz.
    apply in_flat_map in Hz as (info & _ & Hz); apply in_map_iff in Hz as (thread & <- & _).
    simpl in Ho, Ht |- *; rewrite Ho, Ht, Hc. split; auto.
    unfold edits; destruct (bool_decide (pendingEdits w = ∅)) eqn:Hb; auto.
    symmetry; now apply bool_decide_eq_true in Hb.
Qed.

(** ** The thread-update handler keeps one widget per thread *)

Lemma in_map_remove_first {A B} (f : A -> B) p l y :
  In y (map f (remove_first p l)) -> In y (map f l).
Proof.
  induction l as [|x l IH]; simpl; auto. destruct (p x); simpl; auto. intuition.
Qed.

Lemma remove_first_nodup {A B} (f : A -> B) p l :
  List.NoDup (map f l) -> List.NoDup (map f (remove_first p l)).
Proof.
  induction l as [|x l IH]; simpl; intros Hn; auto. inversion Hn; subst.
  destruct (p x); simpl; auto. constructor; auto.
  intros Hin; apply in_map_remove_first in Hin; auto.
Qed.

Lemma update_first_map {B} (f : ReviewZoneWidget -> B) p thread l :
  (forall z, p z = true -> f (zone_update z thread) = f z) ->
  map f (update_first p thread l) = map f l.
Proof.
  intros Hf; induction l as [|z l IH]; simpl; auto.
  destruct (p z) eqn:Hp; simpl; [now rewrite Hf|now rewrite IH].
Qed.

Lemma in_map_update_first p thread o l y :
  (forall z, p z = true -> zone_owner z = o) ->
  In y (map widget_key (update_first p thread l)) ->
  In y (map widget_key l) \/ y = (o, threadId thread).
Proof.
  intros Ho; induction l as [|z l IH]; simpl; auto.
  destruct (p z) eqn:Hp; simpl.
  - intros [<-|H]; [right; unfold widget_key; simpl; now rewrite (Ho z Hp)|auto].
  - intros [<-|H]; [auto|]. destruct (IH H); auto.
Qed.

Lemma update_first_nodup p thread o l :
  (forall z, p z = true -> zone_owner z = o) ->
  ~ In (o, threadId thread) (map widget_key l) ->
  List.NoDup (map widget_key l) -> List.NoDup (map widget_key (update_first p thread l)).
Proof.
  intros Ho; induction l as [|z l IH]; simpl; intros Hnin Hn; auto. inversion Hn; subst.
  destruct (p z) eqn:Hp; simpl.
  - constructor; auto. unfold widget_key at 1; simpl; rewrite (Ho z Hp). intuition.
  - constructor; auto. intros Hin. apply (in_map_update_first p thread o) in Hin as [Hin|Hin]; auto.
Qed.

Lemma nodup_snoc {A} (l : list A) x : List.NoDup l -> ~ In x l -> List.NoDup (l ++ [x]).
Proof.
  induction l as [|y l IH]; simpl; intros Hn Hx; [repeat constructor; auto|].
  inversion Hn; subst. constructor; [|apply IH; auto].
  rewrite in_app_iff; simpl; intuition.
Qed.

Lemma existsb_sameThread_key o thread ws :
  existsb (sameThread o thread) ws = false -> ~ In (o, threadId thread) (map widget_key ws).
Proof.
  intros He Hin; apply in_map_iff in Hin as (z & Hk & Hz).
  assert (Hs : sameThread o thread z = true).
  { unfold widget_key in Hk; injection Hk as Ho Ht. unfold sameThread.
    now rewrite Ho, Ht, !String.eqb_refl. }
  assert (existsb (sameThread o thread) ws = true) by (apply existsb_exists; eauto). congruence.
Qed.

Definition unique_widgets (st : CommentControllerState) : Prop :=
  List.NoDup (map widget_key (_commentWidgets st)).

Lemma removed_step_unique o st t : unique_widgets st -> unique_widgets (removed_step o st t).
Proof.
  unfold unique_widgets, removed_step; intros Hn.
  destruct (existsb _ _); simpl; auto. now apply remove_first_nodup.
Qed.

Lemma changed_step_unique o st t : unique_widgets st -> unique_widgets (changed_step o st t).
Proof.
  unfold unique_widgets, changed_step; intros Hn.
  destruct (existsb _ _); simpl; auto.
  rewrite update_first_map; auto.
  intros z Hz; unfold sameThread in Hz; apply andb_prop in Hz as [_ Ht].
  apply String.eqb_eq in Ht. unfold widget_key; simpl; now rewrite Ht.
Qed.

Lemma added_step_unique env uri o st t : unique_widgets st -> unique_widgets (added_step env uri o st t).
Proof.
  unfold unique_widgets, added_step; intros Hn.
  destruct (existsb (sameThread o t) (_commentWidgets st)) eqn:Hs; auto.
  apply existsb_sameThread_key in Hs.
  destruct (existsb _ _); simpl.
  - apply (update_first_nodup _ t o); auto.
    intros z Hz; apply andb_prop in Hz as [Hz _]; apply andb_prop in Hz as [Hz _].
    now apply String.eqb_eq in Hz.
  - unfold displayCommentThread.
    destruct (negb (hasModel env)); auto. destruct (isEditorInlineOriginal env); auto. simpl.
    rewrite map_app; simpl. now apply nodup_snoc.
Qed.

Lemma fold_unique {A} (step : CommentControllerState -> A -> CommentControllerState) l st :
  (forall st a, unique_widgets st -> unique_widgets (step st a)) ->
  unique_widgets st -> unique_widgets (fold_left step l st).
Proof. intros Hs; revert st; induction l as [|a l IH]; simpl; auto. Qed.

(** X5. The thread-update handler never gives two widgets the same owner
    and thread id: if the widgets had distinct keys before an event, they
    still do after it, whatever threads it adds, removes or changes. *)
Theorem onDidUpdateCommentThreads_unique env st e :
  List.NoDup (map widget_key (_commentWidgets st)) ->
  List.NoDup (map widget_key (_commentWidgets (fst (onDidUpdateCommentThreads env st e)))).
Proof.
  intros Hn; unfold onDidUpdateCommentThreads.
  destruct (if hasModel env then editorURI env else None) as [uri|]; simpl; auto.
  destruct (negb (isCommentingEnabled env)); simpl; auto.
  destruct (List.filter _ _); simpl; auto.
  apply fold_unique; [intros; now apply added_step_unique|].
  apply fold_unique; [intros; now apply changed_step_unique|].
  apply fold_unique; [intros; now apply removed_step_unique|].
  exact Hn.
Qed.

(** X6. An event that only changes threads (adds and removes none) never
    adds, removes or reorders widgets, and every widget keeps its owner,
    thread id and drafts; only the threads shown are replaced. *)
Theorem onDidUpdateCommentThreads_changed_only env st e :
  added e = [] -> removed e = [] ->
  map (fun z => (widget_key z, initialPendingComment z, initialPendingEdits z,
                 pendingNewComment z, pendingEdits z))
      (_commentWidgets (fst (onDidUpdateCommentThreads env st e)))
  = map (fun z => (widget_key z, initialPendingComment z, initialPendingEdits z,
                   pendingNewComment z, pendingEdits z))
      (_commentWidgets st).
Proof.
  intros Ha Hr; unfold onDidUpdateCommentThreads; rewrite Ha, Hr.
  destruct (if hasModel env then editorURI env else None) as [uri|]; simpl; auto.
  destruct (negb (isCommentingEnabled env)); simpl; auto.
  destruct (List.filter _ _); simpl; auto.
  generalize (List.filter (onEditorResource uri) (changed e)) as ts.
  intros ts; revert st; induction ts as [|t ts IH]; intros st; simpl; auto.
  rewrite IH. unfold changed_step. destruct (existsb _ _); simpl; auto.
  apply update_first_map. intros z Hz; unfold sameThread in Hz; apply andb_prop in Hz as [_ Ht].
  apply String.eqb_eq in Ht. unfold widget_key; simpl; now rewrite Ht.
Qed.

(** ** Class names split on spaces *)













(** X14. After [tryUpdateReservedSpace] on an editor, the space is
    reserved exactly when some provider has ranges or threads and
    commenting is enabled, and calling it again with the same infos
    changes nothing. *)
Theorem tryUpdateReservedSpace_settles editor infos enabled reserved :
  let '(editor', reserved') := tryUpdateReservedSpace (Some editor) infos enabled reserved in
  reserved' = hasCommentsOrRanges infos && enabled
  /\ tryUpdateReservedSpace editor' infos enabled reserved' = (editor', reserved').
Proof.
  unfold tryUpdateReservedSpace.
  destruct (hasCommentsOrRanges infos), enabled, reserved; simpl; auto;
    destruct (getExistingCommentEditorOptions editor) as [w names]; simpl; auto.
Qed.

(** ** Hover and selection *)

(** X15. While a selection is recorded, the mouse hover does not move the
    emphasis: any two hover lines that make the decorator recompute give
    the same decorations. *)
Theorem updateHover_pinned_by_selection lineHasThread modelPresent dec c h1 h2 :
  _lastSelectionCursor dec = Some c ->
  h1 <> Some (_lastHover dec) -> h2 <> Some (_lastHover dec) ->
  commentingRangeDecorations (fst (updateHover lineHasThread modelPresent dec h1))
  = commentingRangeDecorations (fst (updateHover lineHasThread modelPresent dec h2)).
Proof.
  intros Hc H1 H2. unfold updateHover.
  assert (Hch : forall h, h <> Some (_lastHover dec) ->
            match h with Some h => negb (h =? _lastHover dec) | None => true end = true).
  { intros [h|] Hh; auto. destruct (Z.eqb_spec h (_lastHover dec)); simpl; congruence. }
  rewrite (Hch h1 H1), (Hch h2 H2).
  destruct (_infos dec) as [infos|]; simpl; auto. destruct (dec_editor dec); simpl; auto.
  unfold decorator_doUpdate, _doUpdate. rewrite Hc. destruct modelPresent; reflexivity.
Qed.

(** X16. When the editor loses focus (a selection event with no
    selection), the recorded selection is dropped, so the next hover on a
    new line puts the emphasis on that line again and no longer splits
    ranges around the old selection. *)
Theorem blur_then_hover lineHasThread dec p h infos :
  dec_editor dec = true -> _infos dec = Some infos -> p <> 0 -> h <> _lastHover dec ->
  Some (commentingRangeDecorations
          (fst (updateHover lineHasThread true
                  (fst (onEditorChangeCursorSelection lineHasThread true dec (Some p) None)) (Some h))))
  = _doUpdate lineHasThread true None infos h None.
Proof.
  intros Hd Hi Hp Hh. unfold onEditorChangeCursorSelection.
  destruct (Z.eqb_spec p 0); [congruence|].
  unfold updateSelection; simpl. rewrite Hi, Hd; simpl.
  unfold updateHover, decorator_doUpdate; simpl. rewrite ?Hi, ?Hd.
  destruct (Z.eqb_spec h (_lastHover dec)); [congruence|]. reflexivity.
Qed.

(** ** Witnesses of the extra properties *)

Lemma setComments_edits_round_trip_witness :
  cachedPendingEdits
    (setComments sample_env
       (sample_state [] [mkZone "o" (sample_thread "t" 1 ["a"]) None None None (<[1 := "x"]> ∅)])
       [sample_info "o" 1 [] [sample_thread "t" 1 ["a"]]]) "o" "t"
  = Some (<[1 := "x"]> ∅).
Proof.
  destruct (setComments_edits_round_trip sample_env
              (sample_state [] [mkZone "o" (sample_thread "t" 1 ["a"]) None None None (<[1 := "x"]> ∅)])
              [sample_info "o" 1 [] [sample_thread "t" 1 ["a"]]] []
              (mkZone "o" (sample_thread "t" 1 ["a"]) None None None (<[1 := "x"]> ∅)) []
              eq_refl eq_refl eq_refl eq_refl (List.Forall_nil _)) as [H _].
  exact H.
Defined.

Lemma setComments_widgets_threads_witness :
  map (fun z => (zone_owner z, commentThread z))
    (_commentWidgets (setComments sample_env (sample_state [] [])
                        [sample_info "o" 1 [] [sample_thread "t" 1 ["a"]]]))
  = [("o", sample_thread "t" 1 ["a"])].
Proof.
  rewrite (setComments_widgets_threads sample_env (sample_state [] [])
             [sample_info "o" 1 [] [sample_thread "t" 1 ["a"]]] eq_refl eq_refl).
  reflexivity.
Defined.

Lemma onDidUpdateCommentThreads_unique_witness :
  List.NoDup (map widget_key
    (_commentWidgets (fst (onDidUpdateCommentThreads sample_env
       (sample_state [sample_info "o" 1 [] []] [batch_widget "t1" 1 ["a"]; batch_widget "t2" 2 ["b"]])
       (mkThreadEvent "o" [sample_thread "t3" 3 []; sample_thread "t1" 1 ["a"]] [] [] []))))).
Proof.
  apply onDidUpdateCommentThreads_unique. simpl.
  repeat constructor; simpl; intuition discriminate.
Defined.

Lemma onDidUpdateCommentThreads_changed_only_witness :
  map (fun z => (widget_key z, initialPendingComment z, initialPendingEdits z,
                 pendingNewComment z, pendingEdits z))
      (_commentWidgets (fst (onDidUpdateCommentThreads sample_env
         (sample_state [sample_info "o" 1 [] []] [draft_widget "ab"])
         (mkThreadEvent "o" [] [] [sample_thread "t" 1 ["a"; "b"]] []))))
  = map (fun z => (widget_key z, initialPendingComment z, initialPendingEdits z,
                   pendingNewComment z, pendingEdits z)) [draft_widget "ab"].
Proof. apply onDidUpdateCommentThreads_changed_only; reflexivity. Defined.

Lemma addCommentAtLine_single_witness :
  exists st',
    addCommentAtLine sample_env marker_range (Some [sample_info "o" 1 [line_range 1 3] []])
      [sample_decoration "o" 1 1 3] (sample_state [] []) (Some (line_range 2 2)) false
    = AddReturns st' [CreateThreadTemplate "o" (Some (line_range 2 2))]
    /\ _addInProgress st' = false.
Proof.
  destruct (addCommentAtLine_single sample_env marker_range (Some [sample_info "o" 1 [line_range 1 3] []])
              [sample_decoration "o" 1 1 3] (sample_state [] []) (Some (line_range 2 2)) false
              (getCommentAction (sample_decoration "o" 1 1 3)) eq_refl eq_refl)
    as (st' & H & Hf & _).
  exists st'; split; [exact H|exact Hf].
Defined.

Lemma addOrToggleCommentAtLine_fifo_witness :
  exists st',
    addOrToggleCommentAtLine sample_env marker_range None [] (fun _ => 0) (fun _ => true)
      (mkController [] [] ∅ ∅ true [(Some (line_range 1 1), false)]) (Some (line_range 2 2)) true
    = Queued st'
    /\ snd (processNextThreadToAdd st') = [AddOrToggleQueued (Some (line_range 1 1)) false].
Proof.
  destruct (addOrToggleCommentAtLine_fifo sample_env marker_range None [] (fun _ => 0) (fun _ => true)
              (mkController [] [] ∅ ∅ true [(Some (line_range 1 1), false)]) (Some (line_range 2 2)) true
              eq_refl) as (st' & H & _ & _ & _ & Hn & _).
  exists st'; split; [exact H|exact Hn].
Defined.

Lemma nearest_loop_moves_witness :
  lineNumber (mkPosition 2 1) < startLineNumber (line_range 5 6).
Proof.
  destruct (nearest_loop_moves marker_range (mkPosition 2 1) false None
              [sample_decoration "o" 1 1 3; sample_decoration "o" 1 5 6] (line_range 5 6) eq_refl)
    as [_ H].
  exact H.
Defined.

Lemma getMatchedCommentAction_from_touching_witness :
  exists d r, In d [sample_decoration "o" 1 1 3]
              /\ getCommentAction d = getCommentAction (sample_decoration "o" 1 1 3)
              /\ marker_range d = Some r
              /\ areRangesIntersectingOrTouchingByLine r (line_range 2 2) = true.
Proof.
  apply (getMatchedCommentAction_from_touching marker_range None [sample_decoration "o" 1 1 3]
           (line_range 2 2)).
  vm_compute; left; reflexivity.
Defined.

Lemma onEditorMouseUp_range_witness :
  line_in 2 (mkRange 2 1 5 11).
Proof.
  exact (proj1 (onEditorMouseUp_range 5 true false 2 (fun _ => 10) None (mkRange 2 1 5 11)
                  (Some (mkRange 5 1 5 1)) eq_refl)).
Defined.

Lemma threadIsPastCursor_monotone_witness :
  threadIsPastCursor false (mkPosition 2 1) (range_widget 5) = true.
Proof.
  apply (threadIsPastCursor_monotone false (mkPosition 2 1) (range_widget 3)).
  - simpl; lia.
  - vm_compute; discriminate.
  - reflexivity.
Defined.


Lemma updateHover_pinned_by_selection_witness :
  commentingRangeDecorations
    (fst (updateHover (fun _ => false) true
            (mkDecorator true (Some [sample_info "o" 1 [line_range 1 5] []]) (-1)
               (Some (line_range 2 3)) (Some 3) []) (Some 1)))
  = commentingRangeDecorations
      (fst (updateHover (fun _ => false) true
              (mkDecorator true (Some [sample_info "o" 1 [line_range 1 5] []]) (-1)
                 (Some (line_range 2 3)) (Some 3) []) (Some 5))).
Proof.
  apply (updateHover_pinned_by_selection _ _ _ 3); [reflexivity|discriminate|discriminate].
Defined.

Lemma blur_then_hover_witness :
  Some (commentingRangeDecorations
          (fst (updateHover (fun _ => false) true
                  (fst (onEditorChangeCursorSelection (fun _ => false) true
                          (mkDecorator true (Some [sample_info "o" 1 [line_range 1 5] []]) (-1)
                             (Some (line_range 2 3)) (Some 3) [])
                          (Some 4) None)) (Some 1))))
  = _doUpdate (fun _ => false) true None [sample_info "o" 1 [line_range 1 5] []] 1 None.
Proof. apply blur_then_hover; [reflexivity|reflexivity|lia|simpl; lia]. Defined.
